(** * fastapi_filter.base.filter: a shallow embedding and its properties

    The development follows [fastapi_filter/base/filter.py]:

    - [BaseFilterModel]: [filtering_fields], [ordering_values] and the two
      "before" validators [strip_order_by_values] and [validate_order_by];
    - [with_prefix] and its [plain_validator];
    - [_list_to_str_fields];
    - [FilterDepends] and its [FilterWrapper].

    Python values are modelled as plain data ([pyval]), exceptions as values
    of [exn], a Python call that may raise as a [result].  Python [dict]s
    that are only looked up by key are [gmap]s, Python [set]s are [gset]s,
    and dicts whose order is observable are association lists. *)

From Stdlib Require Import ZArith String Ascii.
From stdpp Require Import gmap strings list sorting pretty.

Set Warnings "-register-all".
Open Scope string_scope.
Open Scope list_scope.

(** ** Python strings

    A [str] is a [string] whose characters are the code points below 256. *)

Module PyStr.

(** [str.isspace] on one character, for the code points below 256. *)
Definition isspace (c : ascii) : bool :=
  let n := nat_of_ascii c in
  (Nat.leb 9 n && Nat.leb n 13) || (Nat.leb 28 n && Nat.leb n 32)
  || Nat.eqb n 133 || Nat.eqb n 160.

(** [str.lstrip()] *)
Fixpoint lstrip (s : string) : string :=
  match s with
  | EmptyString => EmptyString
  | String c s' => if isspace c then lstrip s' else s
  end.

(** [str.rstrip()] *)
Fixpoint rstrip (s : string) : string :=
  match s with
  | EmptyString => EmptyString
  | String c s' =>
      match rstrip s' with
      | EmptyString => if isspace c then EmptyString else String c EmptyString
      | r => String c r
      end
  end.

(** [str.strip()] *)
Definition strip (s : string) : string := rstrip (lstrip s).

(** [s.replace(c, "")] for a one-character [c]: every occurrence goes. *)
Fixpoint remove_char (c : ascii) (s : string) : string :=
  match s with
  | EmptyString => EmptyString
  | String d s' =>
      if Ascii.eqb d c then remove_char c s' else String d (remove_char c s')
  end.

(** [s.startswith(p)] *)
Fixpoint startswith (p s : string) : bool :=
  match p, s with
  | EmptyString, _ => true
  | String a p', String b s' => Ascii.eqb a b && startswith p' s'
  | String _ _, EmptyString => false
  end.

Fixpoint drop (n : nat) (s : string) : string :=
  match n, s with
  | O, _ => s
  | S n', String _ s' => drop n' s'
  | S _, EmptyString => EmptyString
  end.

(** [s.removeprefix(p)] *)
Definition removeprefix (p s : string) : string :=
  if startswith p s then drop (String.length p) s else s.

(** [sep.join(parts)] on strings. *)
Fixpoint join (sep : string) (parts : list string) : string :=
  match parts with
  | [] => ""
  | [x] => x
  | x :: rest => x +:+ sep +:+ join sep rest
  end.

(** Iterating over a [str] yields its characters as one-character strings. *)
Fixpoint chars (s : string) : list string :=
  match s with
  | EmptyString => []
  | String c s' => String c EmptyString :: chars s'
  end.

(** [s.split(c)] for a one-character separator. *)
Fixpoint split (c : ascii) (s : string) : list string :=
  match s with
  | EmptyString => [EmptyString]
  | String d s' =>
      if Ascii.eqb d c then EmptyString :: split c s'
      else match split c s' with
           | piece :: pieces => String d piece :: pieces
           | [] => [String d EmptyString]
           end
  end.

(** [c in s] *)
Fixpoint contains (c : ascii) (s : string) : bool :=
  match s with
  | EmptyString => false
  | String d s' => Ascii.eqb d c || contains c s'
  end.

Fixpoint all_space (s : string) : bool :=
  match s with
  | EmptyString => true
  | String c s' => isspace c && all_space s'
  end.

Definition first_char (s : string) : option ascii :=
  match s with
  | EmptyString => None
  | String c _ => Some c
  end.

Fixpoint last_char (s : string) : option ascii :=
  match s with
  | EmptyString => None
  | String c EmptyString => Some c
  | String _ s' => last_char s'
  end.

(** No white space at either end. *)
Definition trimmed (s : string) : Prop :=
  (forall c, first_char s = Some c -> isspace c = false) /\
  (forall c, last_char s = Some c -> isspace c = false).

End PyStr.

(** ** Python values, exceptions, results *)

(** Plain data, as a validator receives it and as [model_dump] returns it. *)
Inductive pyval : Type :=
| VNone
| VBool (b : bool)
| VInt (z : Z)
| VStr (s : string)
| VList (l : list pyval)
| VDict (d : list (string * pyval)).

(** One entry of [ValidationError.errors()]. *)
Record error_detail : Type := ErrorDetail {
  err_type : string;
  err_loc : string;
  err_msg : string
}.

Inductive exn : Type :=
| TypeError (msg : string)
| AttributeError (msg : string)
| ValueError (msg : string)
| ValidationError (errors : list error_detail)
| RequestValidationError (errors : list error_detail)
| RecursionError.

Inductive result (A : Type) : Type :=
| Ok (a : A)
| Raise (e : exn).
Arguments Ok {A} a.
Arguments Raise {A} e.

#[global] Instance result_ret : MRet result := fun _ a => Ok a.
#[global] Instance result_bind : MBind result := fun _ _ f m =>
  match m with
  | Ok a => f a
  | Raise e => Raise e
  end.

(** [bool(v)]: the truth value of a Python object. *)
Definition truthy (v : pyval) : bool :=
  match v with
  | VNone => false
  | VBool b => b
  | VInt z => negb (z =? 0)%Z
  | VStr s => negb (String.eqb s "")
  | VList l => match l with [] => false | _ :: _ => true end
  | VDict d => match d with [] => false | _ :: _ => true end
  end.

(** [type(v).__name__] *)
Definition type_name (v : pyval) : string :=
  match v with
  | VNone => "NoneType"
  | VBool _ => "bool"
  | VInt _ => "int"
  | VStr _ => "str"
  | VList _ => "list"
  | VDict _ => "dict"
  end.

(** [for x in v]: the items a [for] loop visits, or the [TypeError] of a
    value that is not iterable. *)
Definition py_iter (v : pyval) : result (list pyval) :=
  match v with
  | VStr s => Ok (VStr <$> PyStr.chars s)
  | VList l => Ok l
  | VDict d => Ok ((fun kv => VStr kv.1) <$> d)
  | _ => Raise (TypeError ("'" +:+ type_name v +:+ "' object is not iterable"))
  end.

(** [v.<meth>(...)] for a method of [str]: the receiver, or the
    [AttributeError] of a value that has no such method. *)
Definition as_str (meth : string) (v : pyval) : result string :=
  match v with
  | VStr s => Ok s
  | _ => Raise (AttributeError
                  ("'" +:+ type_name v +:+ "' object has no attribute '" +:+ meth +:+ "'"))
  end.

(** ** [BaseFilterModel.Constants] *)

(** [model] is the target class, seen through [hasattr]: the set of its
    attribute names. *)
Record Constants : Type := {
  model : gset string;
  ordering_field_name : string;
  search_model_fields : list string;
  search_field_name : string;
  prefix : string
}.

Definition hasattr (attrs : gset string) (name : string) : bool :=
  bool_decide (name ∈ attrs).

(** ** The ordering validators *)

Section Validators.
Context (C : Constants).

(** The [for] loop of [strip_order_by_values]; the accumulator is
    [stripped_values]. *)
Fixpoint strip_loop (value stripped_values : list pyval) : result (list pyval) :=
  match value with
  | [] => Ok stripped_values
  | field_name :: rest =>
      s ← as_str "strip" field_name;
      let stripped_value := PyStr.strip s in
      if truthy (VStr stripped_value)
      then strip_loop rest (stripped_values ++ [VStr stripped_value])
      else strip_loop rest stripped_values
  end.

Definition strip_order_by_values (value : pyval) (field_name : string)
  : result pyval :=
  if negb (String.eqb field_name (ordering_field_name C)) then Ok value
  else if negb (truthy value) then Ok VNone
  else
    items ← py_iter value;
    stripped_values ← strip_loop items [];
    Ok (VList stripped_values).

(** [s.replace("-", "").replace("+", "")] *)
Definition direction_free (s : string) : string :=
  PyStr.remove_char "+" (PyStr.remove_char "-" s).

(** The two locals of [validate_order_by]: the [defaultdict(list)] and the
    [set]. *)
Record usage_state : Type := {
  field_name_usages : gmap string (list string);
  duplicated_field_names : gset string
}.

Definition no_usages : usage_state :=
  {| field_name_usages := ∅; duplicated_field_names := ∅ |}.

(** [field_name_usages[k]] on a [defaultdict(list)]. *)
Definition usages_of (m : gmap string (list string)) (k : string) : list string :=
  default [] (m !! k).

Definition invalid_field_message (field_name : string) : string :=
  field_name +:+ " is not a valid ordering field.".

(** The first [for] loop of [validate_order_by]. *)
Fixpoint validate_loop (value : list pyval) (st : usage_state) : result usage_state :=
  match value with
  | [] => Ok st
  | field_name_with_direction :: rest =>
      tok ← as_str "replace" field_name_with_direction;
      let field_name := direction_free tok in
      if negb (hasattr (model C) field_name)
      then Raise (ValueError (invalid_field_message field_name))
      else
        let usages := usages_of (field_name_usages st) field_name ++ [tok] in
        validate_loop rest
          {| field_name_usages := <[field_name := usages]> (field_name_usages st);
             duplicated_field_names :=
               if Nat.ltb 1 (length usages)
               then {[field_name]} ∪ duplicated_field_names st
               else duplicated_field_names st |}
  end.

(** The list comprehension that feeds [", ".join]. *)
Definition ambiguous_tokens (st : usage_state) : list string :=
  field_name ← merge_sort String.le (elements (duplicated_field_names st));
  usages_of (field_name_usages st) field_name.

Definition ambiguous_message (listed : list string) : string :=
  "Field names can appear at most once for " +:+ ordering_field_name C +:+ ". "
  +:+ "The following was ambiguous: " +:+ PyStr.join ", " listed +:+ ".".

Definition validate_order_by (value : pyval) (field_name : string)
  : result pyval :=
  if negb (String.eqb field_name (ordering_field_name C)) then Ok value
  else if negb (truthy value) then Ok VNone
  else
    items ← py_iter value;
    st ← validate_loop items no_usages;
    if negb (bool_decide (duplicated_field_names st = ∅))
    then Raise (ValueError (ambiguous_message (ambiguous_tokens st)))
    else Ok value.

(** The two rules in the order the class declares them, on the ordering
    field. *)
Definition strip_then_validate (value : pyval) : result pyval :=
  stripped ← strip_order_by_values value (ordering_field_name C);
  validate_order_by stripped (ordering_field_name C).

End Validators.

(** ** Python dicts whose order is observable *)

Section Dict.
Context {V : Type}.

(** [d[k] = v]: an existing key keeps its place. *)
Fixpoint dict_set (d : list (string * V)) (k : string) (v : V) : list (string * V) :=
  match d with
  | [] => [(k, v)]
  | (k', v') :: rest =>
      if String.eqb k' k then (k', v) :: rest else (k', v') :: dict_set rest k v
  end.

Fixpoint dict_get (d : list (string * V)) (k : string) : option V :=
  match d with
  | [] => None
  | (k', v') :: rest => if String.eqb k' k then Some v' else dict_get rest k
  end.

(** [d.pop(k, None)], the popped value dropped. *)
Fixpoint dict_pop (d : list (string * V)) (k : string) : list (string * V) :=
  match d with
  | [] => []
  | (k', v') :: rest =>
      if String.eqb k' k then rest else (k', v') :: dict_pop rest k
  end.

Definition keys (d : list (string * V)) : list string := fst <$> d.
End Dict.

(** ** Schemas and instances *)

(** A declared type, as [get_origin] and [get_args] see it. *)
Inductive annotation : Type :=
| TNoneType
| TBool
| TInt
| TFloat
| TStr
| TListBare                         (* [list] *)
| TList (elem : annotation)         (* [List[elem]], [list[elem]] *)
| TUnion (args : list annotation)   (* [Union[...]], [a | b], [Optional[a]] *)
| TClass (name : string).

Definition TOptional (a : annotation) : annotation := TUnion [a; TNoneType].

Inductive default_value : Type :=
| PydanticUndefined
| DefaultValue (v : pyval).

(** What the code reads of a pydantic [FieldInfo].  [alias_priority] tells
    where an alias comes from: 2 for an alias that the field declares, 1
    for an alias that an alias generator made. *)
Record FieldInfo : Type := {
  fi_annotation : annotation;
  fi_default : default_value;
  fi_alias : option string;
  fi_alias_priority : option nat
}.

(** [FieldInfo.is_required()], for a field without default factory. *)
Definition is_required (f : FieldInfo) : bool :=
  match fi_default f with
  | PydanticUndefined => true
  | DefaultValue _ => false
  end.

(** [Filter.model_fields]: the declared fields, in declaration order. *)
Definition model_fields : Type := list (string * FieldInfo).

(** One field of an instance: its value and whether it is in
    [model_fields_set]. *)
Record field_value : Type := {
  fv_name : string;
  fv_alias : option string;
  fv_value : pyval;
  fv_set : bool
}.

(** An instance of a schema: its fields in declaration order. *)
Definition instance : Type := list field_value.

Definition is_none (v : pyval) : bool :=
  match v with VNone => true | _ => false end.

(** [self.model_dump(by_alias=.., exclude_none=.., exclude_unset=..)] *)
Definition model_dump (by_alias exclude_none exclude_unset : bool) (self : instance)
  : list (string * pyval) :=
  omap (fun fv =>
          if (exclude_unset && negb (fv_set fv)) || (exclude_none && is_none (fv_value fv))
          then None
          else Some (if by_alias then default (fv_name fv) (fv_alias fv) else fv_name fv,
                     fv_value fv))
       self.

(** The value that the instance holds for the field [name], if [name] is
    a field. *)
Fixpoint field_value_of (self : instance) (name : string) : option pyval :=
  match self with
  | [] => None
  | fv :: rest =>
      if String.eqb (fv_name fv) name then Some (fv_value fv)
      else field_value_of rest name
  end.

(** What attribute access on an instance can give: the value of a field or
    of a class attribute, the items view of a dict, a method bound to the
    instance, or a class nested in the class. *)
Inductive attribute : Type :=
| DataValue (v : pyval)
| DictItems (items : list (string * pyval))
| BoundMethod (name : string)
| ClassObject (name : string).

(** A class, as attribute access on its instances sees it: its properties
    with their getters, and its other members (methods, class attributes,
    nested classes), the inherited ones included. *)
Record pyclass : Type := {
  class_name : string;
  properties : list (string * (instance -> result attribute));
  members : list (string * attribute)
}.

(** [getattr(self, name)]: a property of the class comes first, then the
    fields of the instance, then the other members of the class; a name
    that is none of these raises [AttributeError]. *)
Definition getattr (cls : pyclass) (self : instance) (name : string)
  : result attribute :=
  match dict_get (properties cls) name with
  | Some getter => getter self
  | None =>
      match field_value_of self name with
      | Some v => Ok (DataValue v)
      | None =>
          match dict_get (members cls) name with
          | Some a => Ok a
          | None =>
              Raise (AttributeError
                       ("'" +:+ class_name cls +:+ "' object has no attribute '"
                        +:+ name +:+ "'"))
          end
      end
  end.

(** ** [BaseFilterModel] properties *)

Section BaseFilterModel.
Context (C : Constants).

Definition filtering_fields (self : instance) : list (string * pyval) :=
  let fields := model_dump false true true self in
  dict_pop fields (ordering_field_name C).

Definition ordering_not_defined_message : string :=
  "Ordering field " +:+ ordering_field_name C +:+ " is not defined. "
  +:+ "Make sure to add it to your filter class.".

Definition ordering_values (cls : pyclass) (self : instance) : result attribute :=
  match getattr cls self (ordering_field_name C) with
  | Ok a => Ok a
  | Raise (AttributeError _) => Raise (AttributeError ordering_not_defined_message)
  | Raise e => Raise e
  end.
End BaseFilterModel.

(** ** Construction of a closed schema

    The part of constructing a filter from keyword arguments that comes
    from the class header
    [BaseFilterModel(BaseModel, extra="forbid")]: a field is looked up under
    its alias when it has one and under its name otherwise, a required field
    must be supplied, and a key that is no field is rejected.  Validation of
    the supplied values against their declared types is left out. *)

Definition field_key (name : string) (f : FieldInfo) : string :=
  default name (fi_alias f).

Definition missing_errors (fields : model_fields) (kwargs : list (string * pyval))
  : list error_detail :=
  omap (fun '(name, f) =>
          match dict_get kwargs (field_key name f) with
          | None => if is_required f
                    then Some (ErrorDetail "missing" (field_key name f) "Field required")
                    else None
          | Some _ => None
          end) fields.

Definition extra_errors (fields : model_fields) (kwargs : list (string * pyval))
  : list error_detail :=
  omap (fun '(k, _) =>
          if bool_decide (k ∈ (fun nf => field_key nf.1 nf.2) <$> fields)
          then None
          else Some (ErrorDetail "extra_forbidden" k "Extra inputs are not permitted"))
       kwargs.

Definition populate (fields : model_fields) (kwargs : list (string * pyval))
  : instance :=
  (fun '(name, f) =>
     match dict_get kwargs (field_key name f) with
     | Some v => {| fv_name := name; fv_alias := fi_alias f; fv_value := v; fv_set := true |}
     | None =>
         {| fv_name := name; fv_alias := fi_alias f;
            fv_value := match fi_default f with
                        | DefaultValue v => v
                        | PydanticUndefined => VNone
                        end;
            fv_set := false |}
     end) <$> fields.

Definition closed_init (fields : model_fields) (kwargs : list (string * pyval))
  : result instance :=
  match missing_errors fields kwargs ++ extra_errors fields kwargs with
  | [] => Ok (populate fields kwargs)
  | errors => Raise (ValidationError errors)
  end.

(** ** [with_prefix] *)

(** What reaches a plain validator: an instance of some [BaseModel], or
    plain data. *)
Inductive pyobj : Type :=
| ModelInstance (self : instance)
| Data (v : pyval).

(** [f"{type(value)}"] *)
Definition type_repr (v : pyval) : string := "<class '" +:+ type_name v +:+ "'>".

Definition is_Some_bool {A} (o : option A) : bool :=
  match o with Some _ => true | None => false end.

Section WithPrefix.
Context (prefix_ : string).
(** The original class: its [Constants], its fields, its constructor. *)
Context (FilterConstants : Constants) (FilterFields : model_fields).
Context (Filter : list (string * pyval) -> result instance).

(** [alias_generator=lambda string: f"{prefix}__{string}"] *)
Definition alias_generator (name : string) : string := prefix_ +:+ "__" +:+ name.

(** [NestedFilter.Constants] after [NestedFilter.Constants.prefix = prefix]. *)
Definition NestedConstants : Constants :=
  {| model := model FilterConstants;
     ordering_field_name := ordering_field_name FilterConstants;
     search_model_fields := search_model_fields FilterConstants;
     search_field_name := search_field_name FilterConstants;
     prefix := prefix_ |}.

(** A field of a class that has an alias generator.  The generator is
    asked when the field has no priority, priority 1 or no alias.  A field
    without priority, or with priority 1, gets priority 1 and the generated
    alias, also when it has an alias that another generator made; a field
    with a higher priority keeps the alias it declares, and gets the
    generated one when it declares none. *)
Definition apply_alias_generator (name : string) (f : FieldInfo) : FieldInfo :=
  let low := match fi_alias_priority f with
             | None => true
             | Some p => Nat.leb p 1
             end in
  if low || negb (is_Some_bool (fi_alias f)) then
    let alias := alias_generator name in
    let priority := if low then Some 1 else fi_alias_priority f in
    {| fi_annotation := fi_annotation f;
       fi_default := fi_default f;
       fi_alias := if low then Some alias
                   else match fi_alias f with
                        | None => Some alias
                        | Some a => Some a
                        end;
       fi_alias_priority := priority |}
  else f.

(** The fields of [NestedFilter]: the fields of [Filter], each under the
    alias generator of the class. *)
Definition NestedFields : model_fields :=
  (fun '(name, f) => (name, apply_alias_generator name f)) <$> FilterFields.

(** [{k.removeprefix(NestedFilter.Constants.prefix): v for k, v in value.items()}] *)
Definition stripped_keys (items : list (string * pyval)) : list (string * pyval) :=
  foldl (fun acc '(k, v) => dict_set acc (PyStr.removeprefix (prefix NestedConstants) k) v)
        [] items.

Definition plain_validator (value : pyobj) : result instance :=
  let value :=
    match value with
    | ModelInstance self => VDict (model_dump false false false self)
    | Data v => v
    end in
  match value with
  | VDict items => Filter (stripped_keys items)
  | _ => Raise (ValueError ("Unexpected type: " +:+ type_repr value))
  end.

Definition with_prefix
  : (Constants * model_fields) * (pyobj -> result instance) :=
  ((NestedConstants, NestedFields), plain_validator).
End WithPrefix.

(** ** [_list_to_str_fields] *)

(** [isinstance(d, Iterable)] *)
Definition is_iterable (d : default_value) : bool :=
  match d with
  | DefaultValue (VStr _) | DefaultValue (VList _) | DefaultValue (VDict _) => true
  | _ => false
  end.

(** The items of [",".join(...)] must all be [str]. *)
Fixpoint join_items (i : nat) (items : list pyval) : result (list string) :=
  match items with
  | [] => Ok []
  | VStr s :: rest => rest' ← join_items (S i) rest; Ok (s :: rest')
  | v :: _ =>
      Raise (TypeError ("sequence item " +:+ pretty i +:+ ": expected str instance, "
                        +:+ type_name v +:+ " found"))
  end.

(** [sep.join(v)] *)
Definition py_join (sep : string) (v : pyval) : result pyval :=
  items ← py_iter v;
  parts ← join_items 0 items;
  Ok (VStr (PyStr.join sep parts)).

(** [annotation_args.remove(type(None))]: the first occurrence goes. *)
Fixpoint remove_none (args : list annotation) : list annotation :=
  match args with
  | [] => []
  | TNoneType :: rest => rest
  | a :: rest => a :: remove_none rest
  end.

(** The first [if] of the loop body: what [annotation] is after it. *)
Definition resolve_annotation (a : annotation) : annotation :=
  match a with
  | TUnion args =>
      match remove_none args with
      | [only] => only
      | _ => a
      end
  | _ => a
  end.

(** [annotation is list or get_origin(annotation) is list] *)
Definition is_list_type (a : annotation) : bool :=
  match a with
  | TListBare | TList _ => true
  | _ => false
  end.

Definition with_default (f : FieldInfo) (d : default_value) : FieldInfo :=
  {| fi_annotation := fi_annotation f; fi_default := d; fi_alias := fi_alias f;
     fi_alias_priority := fi_alias_priority f |}.

(** The body of the loop of [_list_to_str_fields]: the pair stored in
    [ret[name]]. *)
Definition adapted_field (f : FieldInfo) : result (annotation * FieldInfo) :=
  let field_info := f in
  let annotation := resolve_annotation (fi_annotation f) in
  if is_list_type annotation then
    field_info ←
      (if is_iterable (fi_default field_info)
       then match fi_default field_info with
            | DefaultValue v =>
                joined ← py_join "," v; Ok (with_default field_info (DefaultValue joined))
            | PydanticUndefined => Ok field_info
            end
       else Ok field_info);
    Ok (if is_required f then TStr else TOptional TStr, field_info)
  else
    Ok (fi_annotation f, field_info).

(** The loop of [_list_to_str_fields]; the accumulator is [ret]. *)
Fixpoint list_to_str_loop (fields : model_fields)
    (ret : list (string * (annotation * FieldInfo)))
  : result (list (string * (annotation * FieldInfo))) :=
  match fields with
  | [] => Ok ret
  | (name, f) :: rest =>
      entry ← adapted_field f;
      list_to_str_loop rest (dict_set ret name entry)
  end.

Definition _list_to_str_fields (Filter : model_fields)
  : result (list (string * (annotation * FieldInfo))) :=
  list_to_str_loop Filter [].

(** ** [FilterDepends] *)

Section FilterDepends.
(** The original class: its constructor and its two operations, on an
    opaque query handle. *)
Context {Query : Type}.
Context (Filter : list (string * pyval) -> result instance).
Context (Filter_filter Filter_sort : instance -> Query -> result Query).
Context (by_alias : bool).

(** The calls that reach the original class's operations. *)
Inductive delegation : Type :=
| FilterCalled (original_filter : instance) (query : Query)
| SortCalled (original_filter : instance) (query : Query).

(** [FilterWrapper.filter]: the result, and the delegations made. *)
Definition FilterWrapper_filter (self : instance) (query : Query)
  : result Query * list delegation :=
  match Filter (model_dump by_alias false false self) with
  | Raise (ValidationError errors) => (Raise (RequestValidationError errors), [])
  | Raise e => (Raise e, [])
  | Ok original_filter =>
      (Filter_filter original_filter query, [FilterCalled original_filter query])
  end.

(** [FilterWrapper.sort] *)
Definition FilterWrapper_sort (self : instance) (query : Query)
  : result Query * list delegation :=
  match Filter (model_dump by_alias false false self) with
  | Raise (ValidationError errors) => (Raise (RequestValidationError errors), [])
  | Raise e => (Raise e, [])
  | Ok original_filter =>
      (Filter_sort original_filter query, [SortCalled original_filter query])
  end.
End FilterDepends.

(** Modelled from the spec: the rule of the concrete filter classes that
    parses the comma-separated string of an adapted list field back to a
    list at reconstruction time; it is not part of
    [fastapi_filter/base/filter.py].  A string is cut at every comma, any
    other value is left as it is. *)
Definition parse_comma_separated (v : pyval) : pyval :=
  match v with
  | VStr s => VList (VStr <$> PyStr.split "," s)
  | _ => v
  end.

(** A sequence of ordering tokens, as a value. *)
Definition tokens (l : list string) : pyval := VList (VStr <$> l).

(** ** Vocabulary of the statements on ordering *)

(** A token without its leading direction marker, if it has one. *)
Definition strip_direction (tok : string) : string :=
  match tok with
  | String c rest =>
      if Ascii.eqb c "+" || Ascii.eqb c "-" then rest else tok
  | EmptyString => tok
  end.

(** The tokens of [toks] whose field name is [n], in their order. *)
Definition tokens_named (base : string -> string) (toks : list string) (n : string)
  : list string :=
  filter (fun t => base t = n) toks.

(** [ns] is the list of the field names used more than once in [toks], each
    once, in increasing order. *)
Definition duplicated_names (base : string -> string) (toks ns : list string) : Prop :=
  Sorted String.le ns /\ NoDup ns
  /\ forall n, n ∈ ns <-> 1 < length (tokens_named base toks n).

(** The rule on duplicates: a sequence that uses a field name twice is
    rejected by one error that lists the tokens of the duplicated names,
    grouped by name, the names in increasing order. *)
Definition duplicates_rule (C : Constants) (toks : list string) : Prop :=
  ~ NoDup (direction_free <$> toks) ->
  exists ns,
    duplicated_names direction_free toks ns
    /\ validate_order_by C (tokens toks) (ordering_field_name C)
       = Raise (ValueError
                  (ambiguous_message C (n ← ns; tokens_named direction_free toks n))).

(** A token of the form marker and name: after an optional leading [+] or
    [-], no [+] and no [-]. *)
Definition marker_leading (tok : string) : Prop :=
  PyStr.contains "+" (strip_direction tok) = false
  /\ PyStr.contains "-" (strip_direction tok) = false.

(** The rule on unknown fields, for a sequence of one token: the field name
    of the token is [base tok], and validation fails with the error that
    names [naming tok] exactly when the field name is no attribute of the
    target model. *)
Definition unknown_field_rule (base naming : string -> string)
    (C : Constants) (tok : string) : Prop :=
  validate_order_by C (tokens [tok]) (ordering_field_name C)
  = Raise (ValueError (invalid_field_message (naming tok)))
  <-> hasattr (model C) (base tok) = false.

(** ** Vocabulary of the statements on instances *)

(** A field declaration without alias. *)
Definition Field (a : annotation) (d : default_value) : FieldInfo :=
  {| fi_annotation := a; fi_default := d; fi_alias := None;
     fi_alias_priority := None |}.

(** A schema with a criteria field and the ordering field. *)
Definition count_and_order : model_fields :=
  [("count", Field (TOptional TInt) (DefaultValue VNone));
   ("order_by", Field (TOptional (TList TStr)) (DefaultValue VNone))].

(** The defaults the adapter can join: a list-typed field has no iterable
    default, or a list of strings. *)
Definition joinable_default (f : FieldInfo) : Prop :=
  is_list_type (resolve_annotation (fi_annotation f)) = true ->
  is_iterable (fi_default f) = false
  \/ exists l, fi_default f = DefaultValue (tokens l).

(** [adapted] holds, name by name and in the same order, what the loop body
    of [_list_to_str_fields] gives for each field of [fields]. *)
Definition adapted_from (fields : model_fields)
    (adapted : list (string * (annotation * FieldInfo))) : Prop :=
  Forall2 (fun nf ne => ne.1 = nf.1 /\ adapted_field nf.2 = Ok ne.2) fields adapted.

Definition name_and_value (fv : field_value) : string * pyval :=
  (fv_name fv, fv_value fv).

(** A field is a filter criterion when it was supplied, is not [None] and is
    not the ordering field. *)
Definition is_criterion (C : Constants) (fv : field_value) : Prop :=
  fv_set fv = true /\ is_none (fv_value fv) = false
  /\ fv_name fv <> ordering_field_name C.

#[global] Instance is_criterion_dec C fv : Decision (is_criterion C fv).
Proof. unfold is_criterion. apply _. Defined.

(** What the two locals of [validate_order_by] hold once the tokens [seen]
    are processed. *)
Definition usage_inv (seen : list string) (st : usage_state) : Prop :=
  (forall n, usages_of (field_name_usages st) n = tokens_named direction_free seen n)
  /\ (forall n, n ∈ duplicated_field_names st
                <-> 1 < length (tokens_named direction_free seen n)).

(** Constants with the defaults of [BaseFilterModel.Constants], for a target
    model with the attributes [attrs]. *)
Definition constants_for (attrs : list string) : Constants :=
  {| model := list_to_set attrs;
     ordering_field_name := "order_by";
     search_model_fields := [];
     search_field_name := "search";
     prefix := "" |}.

(** A schema with the one field [name]. *)
Definition name_only : model_fields :=
  [("name", Field (TOptional TStr) (DefaultValue VNone))].

(** ** Vocabulary of the further statements *)

Definition is_str (v : pyval) : bool :=
  match v with VStr _ => true | _ => false end.

(** The characters of [s] that are no white space, each as a string. *)
Fixpoint visible_chars (s : string) : list string :=
  match s with
  | EmptyString => []
  | String c s' =>
      if PyStr.isspace c then visible_chars s'
      else String c EmptyString :: visible_chars s'
  end.

(** The defaults [",".join] accepts: the items of a default list of a
    list-typed field are all strings. *)
Definition join_ready (f : FieldInfo) : Prop :=
  is_list_type (resolve_annotation (fi_annotation f)) = true ->
  forall l, fi_default f = DefaultValue (VList l) -> forallb is_str l = true.

(** The members that the body of [BaseFilterModel] sets, its properties
    apart; [model_config] is what the class header [extra="forbid"] makes
    it.  What [BaseModel] itself provides is left aside. *)
Definition declared_members : list (string * attribute) :=
  [("Constants", ClassObject "Constants");
   ("filter", BoundMethod "filter");
   ("sort", BoundMethod "sort");
   ("strip_order_by_values", BoundMethod "strip_order_by_values");
   ("validate_order_by", BoundMethod "validate_order_by");
   ("model_config", DataValue (VDict [("extra", VStr "forbid")]))].

(** The two properties of [BaseFilterModel].  The getter of
    [ordering_values], reached under its own name, asks for the same
    attribute again and never comes to an answer: Python ends this with a
    [RecursionError], which the handler for [AttributeError] lets through. *)
Definition declared_properties (C : Constants)
  : list (string * (instance -> result attribute)) :=
  [("filtering_fields", fun self => Ok (DictItems (filtering_fields C self)));
   ("ordering_values", fun _ => Raise RecursionError)].

(** A filter class, seen through these properties and members. *)
Definition filter_class (C : Constants) : pyclass :=
  {| class_name := "Filter";
     properties := declared_properties C;
     members := declared_members |}.

(** Constants that give [name] as the ordering field. *)
Definition constants_ordered_by (name : string) (attrs : list string) : Constants :=
  {| model := list_to_set attrs;
     ordering_field_name := name;
     search_model_fields := [];
     search_field_name := "search";
     prefix := "" |}.


(** The alias that a field declares itself, if any: one of priority 2 or
    more. *)
Definition declared_alias (f : FieldInfo) : option string :=
  match fi_alias_priority f with
  | Some p => if Nat.leb 2 p then fi_alias f else None
  | None => None
  end.

(** Whether the alias of a field, if it has one, is left to alias
    generators. *)
Definition alias_left_to_generator (f : FieldInfo) : bool :=
  match fi_alias_priority f with
  | Some p => Nat.leb p 1
  | None => true
  end.

(** An item of a mapping, its key without the prefix. *)
Definition cut_prefix (p : string) (kv : string * pyval) : string * pyval :=
  (PyStr.removeprefix p kv.1, kv.2).

(** The two rules in the order in which the class runs them on the ordering
    field.  Both are declared for the mode "before", and pydantic runs the
    validators of that mode from the last declared to the first: the
    validate rule receives the raw value, the strip rule what the validate
    rule returns. *)
Definition validate_then_strip (C : Constants) (value : pyval) : result pyval :=
  validated ← validate_order_by C value (ordering_field_name C);
  strip_order_by_values C validated (ordering_field_name C).

(** What the strip rule leaves of a sequence of tokens. *)
Definition stripped_tokens (toks : list string) : list string :=
  filter (fun s => s <> "") (PyStr.strip <$> toks).

(** * Properties *)

(** ** Facts on [str] methods *)

Module PyStrFacts.
Import PyStr.

Lemma lstrip_first s c : first_char (lstrip s) = Some c -> isspace c = false.
Proof.
  induction s as [|d s IH]; simpl; [discriminate|].
  destruct (isspace d) eqn:Hd; [exact IH|].
  simpl. intros [= <-]. exact Hd.
Qed.

Lemma lstrip_fixed s :
  (forall c, first_char s = Some c -> isspace c = false) -> lstrip s = s.
Proof.
  destruct s as [|d s]; simpl; [reflexivity|].
  intros H. now rewrite (H d eq_refl).
Qed.

Lemma rstrip_last s c : last_char (rstrip s) = Some c -> isspace c = false.
Proof.
  induction s as [|d s IH]; simpl; [discriminate|].
  destruct (rstrip s) as [|e r] eqn:Hr.
  - destruct (isspace d) eqn:Hd; simpl; [discriminate|].
    intros [= <-]. exact Hd.
  - exact IH.
Qed.

Lemma rstrip_fixed s :
  (forall c, last_char s = Some c -> isspace c = false) -> rstrip s = s.
Proof.
  induction s as [|d s IH]; simpl; [reflexivity|].
  intros H. destruct s as [|e s].
  - simpl. now rewrite (H d eq_refl).
  - rewrite IH by exact H. reflexivity.
Qed.

Lemma rstrip_first s :
  (forall c, first_char s = Some c -> isspace c = false) ->
  forall c, first_char (rstrip s) = Some c -> isspace c = false.
Proof.
  destruct s as [|d s]; simpl; [discriminate|].
  intros H c. specialize (H d eq_refl).
  destruct (rstrip s); [rewrite H|]; simpl; intros [= <-]; exact H.
Qed.

Lemma strip_trimmed s : trimmed (strip s).
Proof.
  split.
  - apply rstrip_first, lstrip_first.
  - apply rstrip_last.
Qed.

Lemma strip_fixed s : trimmed s -> strip s = s.
Proof.
  intros [Hf Hl]. unfold strip. rewrite lstrip_fixed by exact Hf.
  now apply rstrip_fixed.
Qed.

Lemma strip_idempotent s : strip (strip s) = strip s.
Proof. apply strip_fixed, strip_trimmed. Qed.

Lemma lstrip_split s : exists l, s = l +:+ lstrip s /\ all_space l = true.
Proof.
  induction s as [|d s [l [Hs Hl]]]; simpl.
  - now exists "".
  - destruct (isspace d) eqn:Hd.
    + exists (String d l). split.
      * change (String d s = String d (l +:+ lstrip s)). now f_equal.
      * simpl. now rewrite Hd.
    + now exists "".
Qed.

Lemma rstrip_split s : exists r, s = rstrip s +:+ r /\ all_space r = true.
Proof.
  induction s as [|d s [r [Hs Hr]]]; simpl.
  - now exists "".
  - destruct (rstrip s) as [|e t] eqn:Ht.
    + destruct (isspace d) eqn:Hd.
      * exists (String d r). split.
        -- change (String d s = String d ("" +:+ r)). now f_equal.
        -- simpl. now rewrite Hd.
      * exists r. split; [|exact Hr].
        change (String d s = String d ("" +:+ r)). now f_equal.
    + exists r. split; [|exact Hr].
      change (String d s = String d (String e t +:+ r)). now f_equal.
Qed.

(** [strip] removes a run of white space at each end and nothing else. *)
Lemma strip_split s :
  exists l r, s = l +:+ strip s +:+ r /\ all_space l = true /\ all_space r = true.
Proof.
  destruct (lstrip_split s) as [l [Hs Hl]].
  destruct (rstrip_split (lstrip s)) as [r [Ht Hr]].
  exists l, r. unfold strip. now rewrite <- Ht.
Qed.

End PyStrFacts.

(** ** The strip rule *)

Section StripFacts.
Context (C : Constants).
Import PyStr PyStrFacts.

Lemma truthy_str s : truthy (VStr s) = bool_decide (s <> "").
Proof.
  simpl. destruct (String.eqb_spec s ""); simpl;
    [rewrite bool_decide_eq_false_2 | rewrite bool_decide_eq_true_2]; auto.
Qed.

Lemma strip_loop_tokens toks acc :
  strip_loop (VStr <$> toks) acc
  = Ok (acc ++ (VStr <$> filter (fun s => s <> "") (strip <$> toks))).
Proof.
  revert acc. induction toks as [|t toks IH]; intros acc; simpl.
  - now rewrite app_nil_r.
  - change (negb (String.eqb (strip t) "")) with (truthy (VStr (strip t))).
    rewrite truthy_str, filter_cons. case_decide.
    + rewrite bool_decide_eq_true_2 by exact H.
      rewrite IH, <- app_assoc. reflexivity.
    + rewrite bool_decide_eq_false_2 by auto. apply IH.
Qed.

(** Whatever the items are, what the loop appends is a sequence of
    trimmed, non-empty strings. *)
Lemma strip_loop_ok items acc out :
  strip_loop items acc = Ok out ->
  exists ss, out = acc ++ (VStr <$> ss)
             /\ Forall (fun s => trimmed s /\ s <> "") ss.
Proof.
  revert acc. induction items as [|x items IH]; intros acc; simpl.
  - intros [= <-]. exists []. now rewrite app_nil_r.
  - destruct x as [| | |s| |]; simpl; try discriminate.
    change (negb (String.eqb (strip s) "")) with (truthy (VStr (strip s))).
    rewrite truthy_str. case_bool_decide as Hs.
    + intros H. destruct (IH _ H) as [ss [-> Hss]].
      exists (strip s :: ss). split.
      * now rewrite <- app_assoc.
      * constructor; [split; [apply strip_trimmed | exact Hs] | exact Hss].
    + apply IH.
Qed.

Lemma strip_filter_fixed ss :
  Forall (fun s => trimmed s /\ s <> "") ss ->
  filter (fun s => s <> "") (strip <$> ss) = ss.
Proof.
  induction 1 as [|s ss [Ht Hne] _ IH]; [reflexivity|].
  rewrite fmap_cons, filter_cons, (strip_fixed s Ht).
  rewrite decide_True by exact Hne. now rewrite IH.
Qed.

Lemma ordering_field_is_itself :
  negb (String.eqb (ordering_field_name C) (ordering_field_name C)) = false.
Proof. now rewrite String.eqb_refl. Qed.

Lemma other_field_is_not field_name :
  field_name <> ordering_field_name C ->
  negb (String.eqb field_name (ordering_field_name C)) = true.
Proof. intros H. now destruct (String.eqb_spec field_name (ordering_field_name C)). Qed.

Lemma strip_order_by_values_tokens toks :
  toks <> [] ->
  strip_order_by_values C (tokens toks) (ordering_field_name C)
  = Ok (tokens (filter (fun s => s <> "") (strip <$> toks))).
Proof.
  intros Hne. unfold strip_order_by_values. rewrite ordering_field_is_itself.
  destruct toks as [|t toks]; [done|].
  cbn [tokens truthy fmap list_fmap negb py_iter mbind result_bind].
  rewrite <- (fmap_cons VStr t toks), strip_loop_tokens. reflexivity.
Qed.

(** C9. The strip rule: a field other than the ordering field keeps its
    input; on the ordering field a null or empty input (any input that is
    false) gives [None] and no error; a non-empty token sequence gives the
    tokens trimmed, the ones that are empty after trimming dropped, and
    trimming removes white space at the two ends of a token only. *)
Theorem strip_order_by_values_spec :
  (forall value field_name,
      field_name <> ordering_field_name C ->
      strip_order_by_values C value field_name = Ok value)
  /\ (forall value,
         truthy value = false ->
         strip_order_by_values C value (ordering_field_name C) = Ok VNone)
  /\ (forall toks,
         toks <> [] ->
         strip_order_by_values C (tokens toks) (ordering_field_name C)
         = Ok (tokens (filter (fun s => s <> "") (strip <$> toks))))
  /\ (forall tok,
         trimmed (strip tok)
         /\ exists l r, tok = l +:+ strip tok +:+ r
                        /\ all_space l = true /\ all_space r = true).
Proof.
  unfold strip_order_by_values. repeat split.
  - intros value field_name Hne. now rewrite other_field_is_not.
  - intros value Hv. now rewrite ordering_field_is_itself, Hv.
  - intros [|t toks] Hne; [done|].
    rewrite ordering_field_is_itself.
    cbn [tokens truthy fmap list_fmap negb py_iter mbind result_bind].
    rewrite <- (fmap_cons VStr t toks), strip_loop_tokens.
    reflexivity.
  - apply strip_trimmed.
  - apply strip_trimmed.
  - apply strip_split.
Qed.

End StripFacts.

(** ** The validate rule *)

Section ValidateFacts.
Context (C : Constants).

Abbreviation valid := (fun t : string => hasattr (model C) (direction_free t) = true).
Abbreviation named := (tokens_named direction_free).

Lemma usage_inv_init : usage_inv [] no_usages.
Proof.
  split; intros n; simpl.
  - unfold usages_of. now rewrite lookup_empty.
  - split; [set_solver | unfold tokens_named; simpl; lia].
Qed.

Lemma named_snoc seen t n :
  named (seen ++ [t]) n
  = named seen n ++ (if decide (direction_free t = n) then [t] else []).
Proof.
  unfold tokens_named. rewrite filter_app. f_equal.
Qed.

Lemma usage_inv_step seen st t :
  usage_inv seen st ->
  let usages := usages_of (field_name_usages st) (direction_free t) ++ [t] in
  usage_inv (seen ++ [t])
    {| field_name_usages := <[direction_free t := usages]> (field_name_usages st);
       duplicated_field_names :=
         if Nat.ltb 1 (length usages)
         then {[direction_free t]} ∪ duplicated_field_names st
         else duplicated_field_names st |}.
Proof.
  intros [Hu Hd] usages. subst usages. split; intros n; simpl.
  - unfold usages_of at 1. rewrite named_snoc.
    destruct (decide (direction_free t = n)) as [<-|Hne].
    + rewrite lookup_insert_eq. simpl. now rewrite Hu.
    + rewrite lookup_insert_ne by exact Hne. rewrite app_nil_r. apply Hu.
  - rewrite named_snoc, Hu.
    destruct (decide (direction_free t = n)) as [<-|Hne].
    + destruct (Nat.ltb_spec 1 (length (named seen (direction_free t) ++ [t])))
        as [Hlt|Hge].
      * split; [intros _; exact Hlt | intros _].
        apply elem_of_union_l, elem_of_singleton. reflexivity.
      * rewrite Hd. rewrite length_app in *. simpl in *. lia.
    + rewrite app_nil_r.
      destruct (Nat.ltb 1 _); [|apply Hd].
      rewrite elem_of_union, elem_of_singleton, Hd.
      split; [intros [Heq|Hlt]; [congruence | exact Hlt] | now right].
Qed.

(** Tokens that all name attributes of the model go through the loop. *)
Lemma validate_loop_valid rest seen st :
  usage_inv seen st ->
  Forall valid rest ->
  exists st', validate_loop C (VStr <$> rest) st = Ok st'
              /\ usage_inv (seen ++ rest) st'.
Proof.
  revert seen st. induction rest as [|t rest IH]; intros seen st Hinv Hall.
  - exists st. now rewrite app_nil_r.
  - apply Forall_cons in Hall as [Ht Hall]. simpl. rewrite Ht. simpl.
    destruct (IH (seen ++ [t]) _ (usage_inv_step _ _ t Hinv) Hall) as [st' [Hl Hi]].
    exists st'. split; [exact Hl|]. now rewrite <- app_assoc in Hi.
Qed.

(** The first token that names no attribute stops the loop. *)
Lemma validate_loop_invalid pre t post st :
  Forall valid pre ->
  hasattr (model C) (direction_free t) = false ->
  validate_loop C (VStr <$> (pre ++ t :: post)) st
  = Raise (ValueError (invalid_field_message (direction_free t))).
Proof.
  revert st. induction pre as [|p pre IH]; intros st Hall Ht; simpl.
  - now rewrite Ht.
  - apply Forall_cons in Hall as [Hp Hall]. rewrite Hp. simpl. now apply IH.
Qed.

Lemma named_length_NoDup toks n :
  NoDup (direction_free <$> toks) -> length (named toks n) <= 1.
Proof.
  induction toks as [|t toks IH]; [simpl; lia|].
  rewrite fmap_cons, NoDup_cons. intros [Hnotin Hnd].
  unfold tokens_named in *. rewrite filter_cons.
  destruct (decide (direction_free t = n)) as [<-|Hne]; [|now apply IH].
  destruct (filter _ toks) as [|u us] eqn:Hf; [simpl; lia|].
  assert (u ∈ filter (fun t0 => direction_free t0 = direction_free t) toks) as Hu
    by (rewrite Hf; left).
  apply list_elem_of_filter in Hu as [Heq Hu].
  destruct Hnotin. rewrite <- Heq. now apply list_elem_of_fmap_2.
Qed.

Lemma named_length_dup toks :
  ~ NoDup (direction_free <$> toks) -> exists n, 1 < length (named toks n).
Proof.
  induction toks as [|t toks IH]; intros Hnd.
  - destruct Hnd. constructor.
  - rewrite fmap_cons, NoDup_cons in Hnd.
    destruct (decide (direction_free t ∈ direction_free <$> toks)) as [Hin|Hnotin].
    + exists (direction_free t). unfold tokens_named. rewrite filter_cons.
      rewrite decide_True by reflexivity. simpl.
      apply list_elem_of_fmap in Hin as [u [Heq Hu]].
      assert (u ∈ filter (fun t0 => direction_free t0 = direction_free t) toks) as Hf
        by (apply list_elem_of_filter; split; [now symmetry | exact Hu]).
      destruct (filter _ toks); [inversion Hf | simpl; lia].
    + destruct IH as [n Hn]; [tauto|].
      exists n. unfold tokens_named in *. rewrite filter_cons.
      destruct (decide _); simpl; lia.
Qed.

(** The names the error lists. *)
Lemma sorted_duplicates toks st :
  usage_inv toks st ->
  duplicated_names direction_free toks
    (merge_sort String.le (elements (duplicated_field_names st))).
Proof.
  intros [_ Hd]. split; [|split].
  - apply Sorted_merge_sort, _.
  - rewrite merge_sort_Permutation. apply NoDup_elements.
  - intros n. rewrite merge_sort_Permutation, elem_of_elements. apply Hd.
Qed.

Lemma ambiguous_tokens_named toks st :
  usage_inv toks st ->
  ambiguous_tokens st
  = n ← merge_sort String.le (elements (duplicated_field_names st)); named toks n.
Proof.
  intros [Hu _]. unfold ambiguous_tokens.
  induction (merge_sort String.le _) as [|n ns IH]; [reflexivity|].
  rewrite !bind_cons, Hu, IH. reflexivity.
Qed.

(** The whole rule on a non-empty sequence of valid tokens. *)
Lemma validate_order_by_valid toks :
  toks <> [] ->
  Forall valid toks ->
  (NoDup (direction_free <$> toks) ->
   validate_order_by C (tokens toks) (ordering_field_name C) = Ok (tokens toks))
  /\ duplicates_rule C toks.
Proof.
  intros Hne Hall.
  destruct (validate_loop_valid toks [] no_usages usage_inv_init Hall)
    as [st [Hloop Hinv]]. simpl in Hinv.
  assert (validate_order_by C (tokens toks) (ordering_field_name C)
          = if negb (bool_decide (duplicated_field_names st = ∅))
            then Raise (ValueError (ambiguous_message C (ambiguous_tokens st)))
            else Ok (tokens toks)) as Hrun.
  { unfold validate_order_by. rewrite ordering_field_is_itself.
    destruct toks as [|t toks]; [done|].
    cbn [tokens truthy fmap list_fmap negb py_iter mbind result_bind].
    rewrite <- (fmap_cons VStr t toks), Hloop. reflexivity. }
  split.
  - intros Hnd. rewrite Hrun, bool_decide_eq_true_2; [reflexivity|].
    apply set_eq. intros n. destruct Hinv as [_ Hd]. rewrite Hd.
    pose proof (named_length_NoDup toks n Hnd) as Hle.
    split; [lia | intros Hin; now apply not_elem_of_empty in Hin].
  - intros Hdup. exists (merge_sort String.le (elements (duplicated_field_names st))).
    split; [now apply sorted_duplicates|].
    rewrite Hrun, bool_decide_eq_false_2.
    + simpl. now rewrite (ambiguous_tokens_named toks).
    + destruct (named_length_dup toks Hdup) as [n Hn].
      destruct Hinv as [_ Hd]. apply Hd in Hn.
      intros Hempty. rewrite Hempty in Hn. now apply not_elem_of_empty in Hn.
Qed.

Lemma validate_order_by_invalid pre t post :
  Forall valid pre ->
  hasattr (model C) (direction_free t) = false ->
  validate_order_by C (tokens (pre ++ t :: post)) (ordering_field_name C)
  = Raise (ValueError (invalid_field_message (direction_free t))).
Proof.
  intros Hall Ht. unfold validate_order_by, tokens.
  rewrite ordering_field_is_itself.
  assert (truthy (VList (VStr <$> pre ++ t :: post)) = true) as ->
    by (now destruct pre).
  cbn [negb py_iter mbind result_bind].
  now rewrite validate_loop_invalid.
Qed.


(** On a sequence of one token, the error for an unknown field comes
    exactly when the field name that the code computes is no attribute. *)
Lemma unknown_field_single tok :
  unknown_field_rule direction_free direction_free C tok.
Proof.
  unfold unknown_field_rule. split.
  - intros Hfail. destruct (hasattr (model C) (direction_free tok)) eqn:Ht;
      [|reflexivity].
    destruct (validate_order_by_valid [tok]) as [Hok _];
      [discriminate | now repeat constructor |].
    rewrite Hok in Hfail; [discriminate | apply NoDup_singleton].
  - intros Ht. now apply (validate_order_by_invalid [] tok []).
Qed.

(** When every field name is an attribute, the sequence is returned or
    refused for its duplicates. *)
Lemma validate_order_by_known toks :
  toks <> [] ->
  Forall valid toks ->
  validate_order_by C (tokens toks) (ordering_field_name C) = Ok (tokens toks)
  \/ exists listed,
      validate_order_by C (tokens toks) (ordering_field_name C)
      = Raise (ValueError (ambiguous_message C listed)).
Proof.
  intros Hne Hall.
  destruct (validate_order_by_valid toks Hne Hall) as [Hok Hdup].
  destruct (decide (NoDup (direction_free <$> toks))) as [Hnd|Hnd].
  - left. now apply Hok.
  - right. destruct (Hdup Hnd) as [ns [_ Hfail]]. eauto.
Qed.

End ValidateFacts.

(** On a token of the documented form, an optional marker and then a name
    without markers, removing every marker and removing the leading one are
    the same. *)
Lemma remove_char_absent c s :
  PyStr.contains c s = false -> PyStr.remove_char c s = s.
Proof.
  induction s as [|d s IH]; [reflexivity|]. simpl.
  destruct (Ascii.eqb d c); [discriminate|]. simpl.
  intros Hs. now rewrite IH.
Qed.

Lemma direction_free_leading tok :
  PyStr.contains "+" (strip_direction tok) = false ->
  PyStr.contains "-" (strip_direction tok) = false ->
  direction_free tok = strip_direction tok.
Proof.
  unfold direction_free. destruct tok as [|c rest]; [reflexivity|].
  unfold strip_direction.
  destruct (Ascii.eqb c "+") eqn:Hplus; [|destruct (Ascii.eqb c "-") eqn:Hminus].
  - apply Ascii.eqb_eq in Hplus as ->. cbn [orb]. intros Hp Hm.
    change (PyStr.remove_char "-" (String "+" rest))
      with (String "+" (PyStr.remove_char "-" rest)).
    rewrite (remove_char_absent "-" rest Hm).
    change (PyStr.remove_char "+" (String "+" rest)) with (PyStr.remove_char "+" rest).
    now apply remove_char_absent.
  - apply Ascii.eqb_eq in Hminus as ->. cbn [orb]. intros Hp Hm.
    change (PyStr.remove_char "-" (String "-" rest)) with (PyStr.remove_char "-" rest).
    rewrite (remove_char_absent "-" rest Hm). now apply remove_char_absent.
  - cbn [orb]. intros Hp Hm.
    rewrite (remove_char_absent "-" _ Hm). now apply remove_char_absent.
Qed.


Lemma marker_leading_field_name tok :
  marker_leading tok -> direction_free tok = strip_direction tok.
Proof. intros [Hplus Hminus]. now apply direction_free_leading. Qed.

Lemma marker_leading_known (C : Constants) toks :
  Forall marker_leading toks ->
  Forall (fun t => hasattr (model C) (strip_direction t) = true) toks ->
  Forall (fun t => hasattr (model C) (direction_free t) = true) toks.
Proof.
  intros Hform. induction Hform as [|t toks Ht _ IH]; intros Hall; [constructor|].
  apply Forall_cons in Hall as [Hknown Hall]. constructor; [|now apply IH].
  now rewrite marker_leading_field_name.
Qed.

(** C3, amended. On tokens of the form marker and name, the marker being an
    optional leading [+] or [-] and the name holding neither: the base
    field name is the token without its leading marker; the first token
    whose base field name is no attribute of the target model makes
    validation fail with an error that names that base field name, and on
    a single token that error comes exactly when the base field name is no
    attribute; when every base field name is an attribute, validation
    returns the sequence or fails on duplicates. *)
Theorem validate_order_by_unknown_field (C : Constants) :
  (forall tok,
      marker_leading tok ->
      unknown_field_rule strip_direction strip_direction C tok)
  /\ (forall pre t post,
         Forall marker_leading pre -> marker_leading t ->
         Forall (fun t => hasattr (model C) (strip_direction t) = true) pre ->
         hasattr (model C) (strip_direction t) = false ->
         validate_order_by C (tokens (pre ++ t :: post)) (ordering_field_name C)
         = Raise (ValueError (invalid_field_message (strip_direction t))))
  /\ (forall toks,
         toks <> [] ->
         Forall marker_leading toks ->
         Forall (fun t => hasattr (model C) (strip_direction t) = true) toks ->
         validate_order_by C (tokens toks) (ordering_field_name C) = Ok (tokens toks)
         \/ exists listed,
             validate_order_by C (tokens toks) (ordering_field_name C)
             = Raise (ValueError (ambiguous_message C listed))).
Proof.
  split; [|split].
  - intros tok Hform. pose proof (unknown_field_single C tok) as Hrule.
    unfold unknown_field_rule in *.
    now rewrite (marker_leading_field_name tok Hform) in Hrule.
  - intros pre t post Hpre Ht Hknown Hunknown.
    rewrite <- (marker_leading_field_name t Ht) in *.
    apply validate_order_by_invalid; [|exact Hunknown].
    now apply marker_leading_known.
  - intros toks Hne Hform Hknown.
    apply validate_order_by_known; [exact Hne|]. now apply marker_leading_known.
Qed.

(** C3, as stated, fails on a token with a marker: the error names the base
    field name, not the token. *)
Lemma unknown_field_rule_as_stated_fails :
  ~ unknown_field_rule strip_direction id (constants_for ["created_at"]) "-zzz".
Proof.
  intros [_ Hfail]. specialize (Hfail eq_refl).
  vm_compute in Hfail. discriminate.
Qed.

(** A marker inside a token is removed as well before the model is asked:
    with the attribute [ab], the token [a-b] passes. *)
Example inner_marker_removed :
  validate_order_by (constants_for ["ab"]) (tokens ["a-b"]) "order_by"
  = Ok (tokens ["a-b"]).
Proof. vm_compute. reflexivity. Qed.

(** ** Strip, then validate *)

Section Idempotence.
Context (C : Constants).

(** A value that passes the validate rule comes back as it is, or as
    [None] when it is false. *)
Lemma validate_order_by_ok value out :
  validate_order_by C value (ordering_field_name C) = Ok out ->
  out = if truthy value then value else VNone.
Proof.
  unfold validate_order_by. rewrite ordering_field_is_itself.
  destruct (truthy value); simpl; [|congruence].
  destruct (py_iter value) as [items|]; simpl; [|discriminate].
  destruct (validate_loop C items no_usages) as [st|]; simpl; [|discriminate].
  destruct (bool_decide _); simpl; [congruence | discriminate].
Qed.

Lemma strip_then_validate_none : strip_then_validate C VNone = Ok VNone.
Proof.
  unfold strip_then_validate, strip_order_by_values, validate_order_by.
  rewrite ordering_field_is_itself. reflexivity.
Qed.

(** C8. Strip then validate is idempotent on what it accepts: the result
    of a successful run goes through both rules again unchanged. *)
Theorem strip_then_validate_idempotent value out :
  strip_then_validate C value = Ok out ->
  strip_then_validate C out = Ok out.
Proof.
  unfold strip_then_validate at 1. unfold strip_order_by_values.
  rewrite ordering_field_is_itself.
  destruct (truthy value) eqn:Hv; simpl.
  - destruct (py_iter value) as [items|]; simpl; [|discriminate].
    destruct (strip_loop items []) as [stripped|] eqn:Hloop; simpl; [|discriminate].
    destruct (strip_loop_ok _ _ _ Hloop) as [ss [-> Hss]]. simpl.
    intros Hval. pose proof (validate_order_by_ok _ _ Hval) as ->.
    destruct ss as [|s ss]; [apply strip_then_validate_none|].
    change (VList (VStr <$> s :: ss)) with (tokens (s :: ss)) in *.
    cbn [tokens truthy fmap list_fmap].
    change (VList (VStr s :: list_fmap _ _ VStr ss)) with (tokens (s :: ss)).
    unfold strip_then_validate.
    rewrite strip_order_by_values_tokens by discriminate.
    rewrite strip_filter_fixed by exact Hss. exact Hval.
  - intros Hval. pose proof (validate_order_by_ok _ _ Hval) as ->.
    apply strip_then_validate_none.
Qed.

End Idempotence.

(** The theorems on the ordering rules, on the tokens of a request. *)

Lemma strip_order_by_values_spec_witness :
  strip_order_by_values (constants_for ["name"]) (VStr "x") "name__like" = Ok (VStr "x")
  /\ strip_order_by_values (constants_for ["name"]) (VList []) "order_by" = Ok VNone
  /\ strip_order_by_values (constants_for ["name"]) (tokens [" -name "; "  "]) "order_by"
     = Ok (tokens ["-name"]).
Proof.
  destruct (strip_order_by_values_spec (constants_for ["name"]))
    as (Hother & Hempty & Htoks & _).
  split; [|split].
  - apply Hother. discriminate.
  - apply Hempty. reflexivity.
  - apply (Htoks [" -name "; "  "]). discriminate.
Defined.


Lemma validate_order_by_unknown_field_witness :
  validate_order_by (constants_for ["name"]) (tokens ["name"; "-zzz"; "yyy"]) "order_by"
  = Raise (ValueError "zzz is not a valid ordering field.")
  /\ (validate_order_by (constants_for ["name"]) (tokens ["-name"]) "order_by"
      = Ok (tokens ["-name"])
      \/ exists listed,
          validate_order_by (constants_for ["name"]) (tokens ["-name"]) "order_by"
          = Raise (ValueError (ambiguous_message (constants_for ["name"]) listed)))
  /\ unknown_field_rule strip_direction strip_direction (constants_for ["name"]) "+zzz".
Proof.
  destruct (validate_order_by_unknown_field (constants_for ["name"]))
    as (Hone & Hbad & Hgood).
  split; [|split].
  - apply (Hbad ["name"] "-zzz" ["yyy"]);
      [repeat constructor | now split | repeat constructor | reflexivity].
  - apply (Hgood ["-name"]); [discriminate | repeat constructor | repeat constructor].
  - apply Hone. now split.
Defined.

Lemma strip_then_validate_idempotent_witness :
  strip_then_validate (constants_for ["created_at"; "name"])
    (tokens ["-created_at"; "name"])
  = Ok (tokens ["-created_at"; "name"]).
Proof.
  apply (strip_then_validate_idempotent _ (tokens [" -created_at"; " "; "name  "])).
  vm_compute. reflexivity.
Defined.

(** ** [filtering_fields] and [ordering_values] *)

Section InstanceFacts.
Context (C : Constants).

Lemma model_dump_keys by_alias exclude_none exclude_unset self k :
  by_alias = false ->
  k ∈ keys (model_dump by_alias exclude_none exclude_unset self) ->
  k ∈ fv_name <$> self.
Proof.
  intros ->. unfold keys, model_dump.
  induction self as [|fv rest IH]; simpl; [easy|].
  destruct (_ || _); simpl.
  - intros Hk. right. now apply IH.
  - rewrite !elem_of_cons. intros [->|Hk]; [now left | right; now apply IH].
Qed.

Lemma dict_pop_fresh {V} (d : list (string * V)) k :
  k ∉ keys d -> dict_pop d k = d.
Proof.
  unfold keys. induction d as [|[k' v'] d IH]; simpl; [reflexivity|].
  rewrite not_elem_of_cons. intros [Hne Hnotin].
  destruct (String.eqb_spec k' k); [congruence|]. now rewrite IH.
Qed.

Lemma unique_names self fv fv' :
  NoDup (fv_name <$> self) -> fv ∈ self -> fv' ∈ self ->
  fv_name fv' = fv_name fv -> fv = fv'.
Proof.
  induction self as [|x rest IH]; [intros _ Hin; inversion Hin|].
  rewrite fmap_cons, NoDup_cons, !elem_of_cons.
  intros [Hfresh Hnd] [->|Hin] [->|Hin'] Heq.
  - reflexivity.
  - destruct Hfresh. rewrite <- Heq. now apply list_elem_of_fmap_2.
  - destruct Hfresh. rewrite Heq. now apply list_elem_of_fmap_2.
  - now apply IH.
Qed.

Lemma filtering_fields_filter self :
  NoDup (fv_name <$> self) ->
  filtering_fields C self = name_and_value <$> filter (is_criterion C) self.
Proof.
  unfold filtering_fields.
  induction self as [|fv rest IH]; [reflexivity|].
  rewrite fmap_cons, NoDup_cons. intros [Hfresh Hnd].
  specialize (IH Hnd). rewrite filter_cons.
  unfold model_dump in *. cbn [omap list_omap andb orb].
  destruct (fv_set fv) eqn:Hset; cbn [negb orb].
  - destruct (is_none (fv_value fv)) eqn:Hnone; cbn [option_bind].
    + rewrite decide_False by (unfold is_criterion; intros (_ & ? & _); congruence).
      exact IH.
    + cbn [dict_pop].
      destruct (String.eqb_spec (fv_name fv) (ordering_field_name C)) as [Heq|Hne].
      * rewrite decide_False by (unfold is_criterion; tauto).
        rewrite <- IH. symmetry. apply dict_pop_fresh.
        rewrite <- Heq. intros Hin. apply Hfresh.
        now apply (model_dump_keys false true true rest).
      * rewrite decide_True by (unfold is_criterion; tauto).
        rewrite fmap_cons, <- IH. reflexivity.
  - rewrite decide_False by (unfold is_criterion; intros (? & _); congruence).
    exact IH.
Qed.

(** C7. The filtering fields of an instance are its fields that were
    supplied, are not [None] and are not the ordering field, each with
    its value, in declaration order; the ordering field and the fields
    that were not supplied are never among them. *)
Theorem filtering_fields_spec self :
  NoDup (fv_name <$> self) ->
  (filtering_fields C self = name_and_value <$> filter (is_criterion C) self)
  /\ (forall n v,
         (n, v) ∈ filtering_fields C self <->
         exists fv, fv ∈ self /\ fv_name fv = n /\ fv_value fv = v
                    /\ fv_set fv = true /\ v <> VNone
                    /\ n <> ordering_field_name C)
  /\ sublist (filtering_fields C self) (name_and_value <$> self)
  /\ (ordering_field_name C ∉ keys (filtering_fields C self))
  /\ (forall fv, fv ∈ self -> fv_set fv = false ->
                 fv_name fv ∉ keys (filtering_fields C self)).
Proof.
  intros Hnd. pose proof (filtering_fields_filter self Hnd) as Heq.
  split; [exact Heq|]. rewrite Heq. repeat split.
  - intros Hin. apply list_elem_of_fmap in Hin as [fv [[= -> ->] Hfv]].
    apply list_elem_of_filter in Hfv as [(Hset & Hnone & Hne) Hfv].
    exists fv. repeat split; try assumption.
    intros Hv. now rewrite Hv in Hnone.
  - intros (fv & Hfv & <- & <- & Hset & Hv & Hne).
    apply (list_elem_of_fmap_2 name_and_value).
    apply list_elem_of_filter. split; [|exact Hfv].
    repeat split; try assumption. now destruct (fv_value fv).
  - apply fmap_sublist, sublist_filter.
  - unfold keys. rewrite <- list_fmap_compose.
    intros Hin. apply list_elem_of_fmap in Hin as [fv [Hname Hfv]].
    apply list_elem_of_filter in Hfv as [(_ & _ & Hne) _]. now apply Hne.
  - intros fv Hfv Hunset. unfold keys. rewrite <- list_fmap_compose.
    intros Hin. apply list_elem_of_fmap in Hin as [fv' [Hname Hfv']].
    apply list_elem_of_filter in Hfv' as [(Hset & _ & _) Hfv'].
    simpl in Hname.
    assert (fv = fv') as ->; [|congruence].
    now apply (unique_names self).
Qed.

Lemma field_value_of_None self name :
  name ∉ fv_name <$> self -> field_value_of self name = None.
Proof.
  induction self as [|fv rest IH]; [reflexivity|].
  rewrite fmap_cons, not_elem_of_cons. intros [Hne Hrest]. simpl.
  destruct (String.eqb_spec (fv_name fv) name); [congruence | now apply IH].
Qed.


Lemma dict_get_None {V} (d : list (string * V)) k :
  k ∉ keys d -> dict_get d k = None.
Proof.
  unfold keys. induction d as [|[k' v'] d IH]; [reflexivity|]. simpl.
  rewrite not_elem_of_cons. intros [Hne Hrest].
  destruct (String.eqb_spec k' k); [congruence | now apply IH].
Qed.

(** A name that is no attribute at all makes [ordering_values] raise. *)
Lemma ordering_values_no_attribute cls self :
  ordering_field_name C ∉ keys (properties cls) ->
  ordering_field_name C ∉ fv_name <$> self ->
  ordering_field_name C ∉ keys (members cls) ->
  ordering_values C cls self
  = Raise (AttributeError (ordering_not_defined_message C)).
Proof.
  intros Hprop Hfield Hmember. unfold ordering_values, getattr.
  now rewrite (dict_get_None _ _ Hprop), (field_value_of_None _ _ Hfield),
    (dict_get_None _ _ Hmember).
Qed.


End InstanceFacts.


(** A property of the class comes before everything else: with
    [filtering_fields] as ordering field, [ordering_values] gives the items
    that the property computes. *)
Example ordering_field_named_like_property :
  ordering_values (constants_ordered_by "filtering_fields" ["count"])
    (filter_class (constants_ordered_by "filtering_fields" ["count"]))
    (populate count_and_order [("count", VInt 5)])
  = Ok (DictItems [("count", VInt 5)]).
Proof. reflexivity. Qed.

(** ** [with_prefix] *)

Section PrefixFacts.
Import PyStr.

Lemma startswith_app p s : startswith p (p +:+ s) = true.
Proof.
  induction p as [|a p IH]; [reflexivity|].
  change (Ascii.eqb a a && startswith p (p +:+ s) = true).
  now rewrite Ascii.eqb_refl, IH.
Qed.

Lemma drop_app p s : drop (String.length p) (p +:+ s) = s.
Proof. induction p as [|a p IH]; [reflexivity | exact IH]. Qed.

Lemma removeprefix_app p s : removeprefix p (p +:+ s) = s.
Proof. unfold removeprefix. now rewrite startswith_app, drop_app. Qed.

Context (prefix_ : string) (FilterConstants : Constants).
Context (Filter : list (string * pyval) -> result instance).

(** The reconstruction rule removes the prefix and leaves the separator:
    a key made by the alias generator of the prefixed class comes out as
    [__name]. *)
Lemma plain_validator_generated_key name v :
  plain_validator prefix_ FilterConstants Filter
    (Data (VDict [(alias_generator prefix_ name, v)]))
  = Filter [("__" +:+ name, v)].
Proof.
  unfold plain_validator, stripped_keys, alias_generator. cbn [foldl prefix NestedConstants].
  now rewrite removeprefix_app.
Qed.

(** Plain data that is no mapping is refused with an error that shows its
    type. *)
Lemma plain_validator_unexpected_type v :
  (forall items, v <> VDict items) ->
  plain_validator prefix_ FilterConstants Filter (Data v)
  = Raise (ValueError ("Unexpected type: <class '" +:+ type_name v +:+ "'>")).
Proof.
  intros Hv. destruct v; try reflexivity. now destruct (Hv d).
Qed.

(** An instance is first turned into the mapping of its fields. *)
Lemma plain_validator_instance self :
  plain_validator prefix_ FilterConstants Filter (ModelInstance self)
  = Filter (stripped_keys prefix_ FilterConstants (model_dump false false false self)).
Proof. reflexivity. Qed.

End PrefixFacts.

(** C1, on the prefix [p] and a schema with the one optional field [x].
    Reconstruction from [{"p__x": 1}] hands [{"__x": 1}] to the original
    schema, which refuses the key; the original schema built from
    [{"x": 1}] is the instance with [x = 1]. *)
Theorem plain_validator_keeps_separator :
  let fields := [("x", Field (TOptional TInt) (DefaultValue VNone))] in
  plain_validator "p" (constants_for ["x"]) (closed_init fields)
    (Data (VDict [("p__x", VInt 1)]))
  = Raise (ValidationError
             [ErrorDetail "extra_forbidden" "__x" "Extra inputs are not permitted"])
  /\ closed_init fields [("x", VInt 1)]
     = Ok [{| fv_name := "x"; fv_alias := None; fv_value := VInt 1; fv_set := true |}]
  /\ (with_prefix "p" (constants_for ["x"]) fields (closed_init fields)).1.2
     = [("x", {| fi_annotation := TOptional TInt; fi_default := DefaultValue VNone;
                 fi_alias := Some "p__x"; fi_alias_priority := Some 1 |})].
Proof. repeat split. Qed.

(** ** [_list_to_str_fields] *)

Section AdapterFacts.
Import PyStr.

Lemma join_items_tokens i l : join_items i (VStr <$> l) = Ok l.
Proof.
  revert i. induction l as [|x l IH]; intros i; [reflexivity|].
  rewrite fmap_cons. cbn [join_items]. now rewrite IH.
Qed.

Lemma py_join_tokens sep l : py_join sep (tokens l) = Ok (VStr (join sep l)).
Proof.
  unfold py_join, tokens. cbn [py_iter mbind result_bind].
  now rewrite join_items_tokens.
Qed.

Lemma split_without c s : contains c s = false -> split c s = [s].
Proof.
  induction s as [|d s IH]; [reflexivity|]. simpl.
  destruct (Ascii.eqb d c); [discriminate|]. simpl.
  intros Hs. now rewrite IH.
Qed.

Lemma split_app c x rest :
  contains c x = false -> split c (x +:+ String c rest) = x :: split c rest.
Proof.
  induction x as [|d x IH].
  - intros _. change (split c (String c rest) = "" :: split c rest).
    simpl. now rewrite Ascii.eqb_refl.
  - simpl. destruct (Ascii.eqb d c) eqn:Hd; [discriminate|]. simpl.
    intros Hx. now rewrite IH.
Qed.

(** Cutting at the commas undoes joining with commas. *)
Lemma split_join l :
  l <> [] -> Forall (fun s => contains "," s = false) l ->
  split "," (join "," l) = l.
Proof.
  intros Hne Hall. induction Hall as [|x l Hx Hall IH]; [done|].
  destruct l as [|y l]; [now apply split_without|].
  change (join "," (x :: y :: l)) with (x +:+ String "," (join "," (y :: l))).
  rewrite split_app by exact Hx. now rewrite IH.
Qed.

Lemma adapted_field_other f :
  is_list_type (resolve_annotation (fi_annotation f)) = false ->
  adapted_field f = Ok (fi_annotation f, f).
Proof. unfold adapted_field. now intros ->. Qed.

Lemma adapted_field_list_plain f :
  is_list_type (resolve_annotation (fi_annotation f)) = true ->
  is_iterable (fi_default f) = false ->
  adapted_field f = Ok (if is_required f then TStr else TOptional TStr, f).
Proof. unfold adapted_field. now intros -> ->. Qed.

Lemma adapted_field_list_default f l :
  is_list_type (resolve_annotation (fi_annotation f)) = true ->
  fi_default f = DefaultValue (tokens l) ->
  adapted_field f
  = Ok (TOptional TStr, with_default f (DefaultValue (VStr (join "," l)))).
Proof.
  unfold adapted_field, is_required. intros -> ->.
  cbn [is_iterable tokens]. fold (tokens l). now rewrite py_join_tokens.
Qed.

(** A required field stays required, an optional one optional. *)
Lemma adapted_field_required f ty fi :
  adapted_field f = Ok (ty, fi) -> is_required fi = is_required f.
Proof.
  unfold adapted_field.
  destruct (is_list_type _); [|now intros [= _ <-]].
  destruct (is_iterable (fi_default f)) eqn:Hit; [|now intros [= _ <-]].
  destruct (fi_default f) as [|v] eqn:Hd; [discriminate|].
  destruct (py_join "," v); simpl; [|discriminate].
  intros [= _ <-]. unfold is_required. simpl. now rewrite Hd.
Qed.

Lemma resolve_annotation_optional a :
  a <> TNoneType -> resolve_annotation (TOptional a) = a.
Proof. now destruct a. Qed.

Lemma dict_set_fresh {V} (d : list (string * V)) k v :
  k ∉ keys d -> dict_set d k v = d ++ [(k, v)].
Proof.
  unfold keys. induction d as [|[k' v'] d IH]; [reflexivity|]. simpl.
  rewrite not_elem_of_cons. intros [Hne Hfresh].
  destruct (String.eqb_spec k' k); [congruence|]. now rewrite IH.
Qed.

Lemma list_to_str_loop_adapted fields : forall ret out,
  NoDup (keys ret ++ keys fields) ->
  list_to_str_loop fields ret = Ok out <->
  exists adapted, adapted_from fields adapted /\ out = ret ++ adapted.
Proof.
  unfold adapted_from.
  induction fields as [|[name f] fields IH]; intros ret out Hnd.
  - simpl. split.
    + intros [= <-]. exists []. split; [constructor | now rewrite app_nil_r].
    + intros (adapted & Had & ->). inversion Had. now rewrite app_nil_r.
  - assert (name ∉ keys ret) as Hfresh.
    { apply NoDup_app in Hnd as (_ & Hdisj & _). intros Hin.
      apply (Hdisj _ Hin). left. }
    assert (forall e, NoDup (keys (ret ++ [(name, e)]) ++ keys fields)) as Hnd'.
    { intros e. unfold keys in *. rewrite fmap_app, <- app_assoc. exact Hnd. }
    cbn [list_to_str_loop]. split.
    + destruct (adapted_field f) as [e|] eqn:He; [|discriminate].
      cbn [mbind result_bind]. rewrite dict_set_fresh by exact Hfresh.
      intros Hloop. apply (IH _ _ (Hnd' e)) in Hloop as (adapted & Had & ->).
      exists ((name, e) :: adapted). split.
      * constructor; [split; [reflexivity | exact He] | exact Had].
      * now rewrite <- app_assoc.
    + intros (adapted & Had & ->).
      inversion Had as [|? [n e] ? adapted' [Hn He] Had']; subst.
      simpl in Hn, He. subst n. rewrite He. cbn [mbind result_bind].
      rewrite dict_set_fresh by exact Hfresh.
      apply (IH _ _ (Hnd' e)). exists adapted'. split; [exact Had'|].
      now rewrite <- app_assoc.
Qed.

(** The adapter fails exactly when the loop body fails on some field, and
    otherwise gives the fields in their order, each with what the loop body
    gives for it. *)
Lemma list_to_str_fields_adapted fields adapted :
  NoDup (keys fields) ->
  _list_to_str_fields fields = Ok adapted <-> adapted_from fields adapted.
Proof.
  intros Hnd. unfold _list_to_str_fields.
  rewrite (list_to_str_loop_adapted fields [] adapted) by exact Hnd.
  split; [intros (a & Ha & ->); exact Ha | intros Ha; now exists adapted].
Qed.

Lemma adapted_from_keys fields adapted :
  adapted_from fields adapted -> keys adapted = keys fields.
Proof.
  unfold keys. induction 1 as [|nf ne fields adapted [Hn _] _ IH]; [reflexivity|].
  rewrite !fmap_cons. now f_equal.
Qed.

Lemma adapted_from_lookup fields adapted name f :
  NoDup (keys fields) -> adapted_from fields adapted -> (name, f) ∈ fields ->
  exists e, adapted_field f = Ok e /\ dict_get adapted name = Some e.
Proof.
  unfold keys. intros Hnd Had.
  induction Had as [|[n0 f0] [n0' e0] fields adapted [Hn He] _ IH];
    [intros Hin; inversion Hin|].
  simpl in Hn, He. subst n0'.
  rewrite fmap_cons, NoDup_cons in Hnd. destruct Hnd as [Hfresh Hnd].
  rewrite elem_of_cons. intros [[= -> ->]|Hin].
  - exists e0. split; [exact He|]. simpl. now rewrite String.eqb_refl.
  - destruct (IH Hnd Hin) as [e [Hf Hget]]. exists e. split; [exact Hf|].
    simpl. destruct (String.eqb_spec n0 name) as [->|_]; [|exact Hget].
    destruct Hfresh. now apply (list_elem_of_fmap_2 fst _ (name, f)).
Qed.

End AdapterFacts.

(** On a schema whose list defaults are lists of strings the adapter gives a
    schema with the same field names in the same order, each field as
    required as before; a field that is no list keeps its declared type and
    its default, a list field becomes a string field, and a default list
    becomes its strings joined by commas. *)
Lemma list_to_str_fields_joinable fields :
  NoDup (keys fields) ->
  Forall (fun nf => joinable_default nf.2) fields ->
  exists adapted,
    _list_to_str_fields fields = Ok adapted
    /\ keys adapted = keys fields
    /\ Forall2 (fun nf ne =>
                  let f := nf.2 in
                  let '(ty, fi) := ne.2 in
                  is_required fi = is_required f
                  /\ (is_list_type (resolve_annotation (fi_annotation f)) = false ->
                      ty = fi_annotation f /\ fi = f)
                  /\ (is_list_type (resolve_annotation (fi_annotation f)) = true ->
                      ty = (if is_required f then TStr else TOptional TStr)
                      /\ (is_iterable (fi_default f) = false -> fi = f)
                      /\ (forall l, fi_default f = DefaultValue (tokens l) ->
                                    fi = with_default f
                                           (DefaultValue (VStr (PyStr.join "," l))))))
               fields adapted.
Proof.
  intros Hnd Hall.
  assert (exists adapted,
             adapted_from fields adapted) as [adapted Had].
  { clear Hnd. induction Hall as [|[n f] fields Hf _ [adapted IH]].
    - exists []. constructor.
    - destruct (is_list_type (resolve_annotation (fi_annotation f))) eqn:Hlist.
      + destruct (Hf Hlist) as [Hplain|[l Hl]].
        * eexists ((n, _) :: adapted). constructor; [split; [reflexivity|]|exact IH].
          now apply adapted_field_list_plain.
        * eexists ((n, _) :: adapted). constructor; [split; [reflexivity|]|exact IH].
          now apply (adapted_field_list_default f l).
      + eexists ((n, _) :: adapted). constructor; [split; [reflexivity|]|exact IH].
        now apply adapted_field_other. }
  exists adapted. split; [now apply list_to_str_fields_adapted|].
  split; [now apply adapted_from_keys|].
  clear Hnd Hall. induction Had as [|[n f] [n' [ty fi]] fields adapted [_ He] _ IH];
    constructor; [|exact IH].
  simpl in *. split; [now apply (adapted_field_required f ty)|]. split.
  - intros Hlist. rewrite adapted_field_other in He by exact Hlist. now injection He.
  - intros Hlist. repeat split.
    + revert He. unfold adapted_field. rewrite Hlist.
      destruct (is_iterable _); [destruct (fi_default f) as [|v]|].
      * now intros [= <- _].
      * destruct (py_join "," v); simpl; [now intros [= <- _] | discriminate].
      * now intros [= <- _].
    + intros Hplain. rewrite adapted_field_list_plain in He by assumption.
      now injection He.
    + intros l Hl. rewrite (adapted_field_list_default f l) in He by assumption.
      unfold is_required in He. now injection He.
Qed.

(** C4. In a schema that the adapter accepts, a list-typed field whose
    default is a list of strings is adapted to an optional string field
    whose default is the strings joined by commas; when the list is not
    empty and no string holds a comma, parsing the joined string gives the
    list back.  For the list ["a"; "b"] the string is "a,b". *)
Theorem list_default_round_trip fields name f l :
  NoDup (keys fields) ->
  Forall (fun nf => joinable_default nf.2) fields ->
  (name, f) ∈ fields ->
  is_list_type (resolve_annotation (fi_annotation f)) = true ->
  fi_default f = DefaultValue (tokens l) ->
  l <> [] ->
  Forall (fun s => PyStr.contains "," s = false) l ->
  exists adapted,
    _list_to_str_fields fields = Ok adapted
    /\ dict_get adapted name
       = Some (TOptional TStr,
               with_default f (DefaultValue (VStr (PyStr.join "," l))))
    /\ parse_comma_separated (VStr (PyStr.join "," l)) = tokens l.
Proof.
  intros Hnd Hjoin Hin Hlist Hdefault Hne Hall.
  destruct (list_to_str_fields_joinable fields Hnd Hjoin) as (adapted & Hrun & _).
  exists adapted. split; [exact Hrun|]. split.
  - apply list_to_str_fields_adapted in Hrun; [|exact Hnd].
    destruct (adapted_from_lookup fields adapted name f Hnd Hrun Hin) as (e & He & Hget).
    rewrite (adapted_field_list_default f l Hlist Hdefault) in He.
    injection He as <-. exact Hget.
  - unfold parse_comma_separated, tokens. now rewrite split_join.
Qed.

Lemma list_default_round_trip_witness :
  exists adapted,
    _list_to_str_fields
      (("tags__in", Field (TOptional (TList TStr)) (DefaultValue (tokens ["a"; "b"])))
       :: count_and_order)
    = Ok adapted
    /\ dict_get adapted "tags__in"
       = Some (TOptional TStr,
               {| fi_annotation := TOptional (TList TStr);
                  fi_default := DefaultValue (VStr "a,b");
                  fi_alias := None;
                  fi_alias_priority := None |})
    /\ parse_comma_separated (VStr "a,b") = tokens ["a"; "b"].
Proof.
  apply (list_default_round_trip
           (("tags__in", Field (TOptional (TList TStr)) (DefaultValue (tokens ["a"; "b"])))
            :: count_and_order)
           "tags__in"
           (Field (TOptional (TList TStr)) (DefaultValue (tokens ["a"; "b"])))
           ["a"; "b"]).
  - apply (bool_decide_unpack _). vm_compute. exact I.
  - constructor; [intros _; right; now exists ["a"; "b"]|].
    constructor; [intros Hlist; discriminate Hlist|].
    constructor; [intros _; now left|]. constructor.
  - left.
  - reflexivity.
  - reflexivity.
  - discriminate.
  - repeat constructor.
Defined.

(** C5, on a schema with the one field [age__in: Optional[List[int]]] whose
    default is the list [1, 2]: the adapter raises the [TypeError] of
    joining items that are no strings, and gives no adapted schema. *)
Theorem list_to_str_fields_int_default :
  _list_to_str_fields
    [("age__in", Field (TOptional (TList TInt)) (DefaultValue (VList [VInt 1; VInt 2])))]
  = Raise (TypeError "sequence item 0: expected str instance, int found").
Proof. reflexivity. Qed.

(** ** [FilterDepends] *)

Section WrapperFacts.
Context {Query : Type}.
Context (Filter : list (string * pyval) -> result instance).
Context (Filter_filter Filter_sort : instance -> Query -> result Query).
Context (by_alias : bool).

(** C6. The wrapped [filter] and [sort] build the original schema from the
    mapping of the adapted instance.  When that raises a validation
    error, the call raises the request validation error with the same
    list of errors and delegates nothing; when it gives an instance,
    the call is the original operation on that instance, with the
    argument it was given, and delegates once. *)
Theorem FilterWrapper_spec self query :
  (forall errors,
      Filter (model_dump by_alias false false self) = Raise (ValidationError errors) ->
      FilterWrapper_filter Filter Filter_filter by_alias self query
      = (Raise (RequestValidationError errors), [])
      /\ FilterWrapper_sort Filter Filter_sort by_alias self query
         = (Raise (RequestValidationError errors), []))
  /\ (forall original_filter,
         Filter (model_dump by_alias false false self) = Ok original_filter ->
         FilterWrapper_filter Filter Filter_filter by_alias self query
         = (Filter_filter original_filter query, [FilterCalled original_filter query])
         /\ FilterWrapper_sort Filter Filter_sort by_alias self query
            = (Filter_sort original_filter query, [SortCalled original_filter query]))
  /\ (forall e,
         Filter (model_dump by_alias false false self) = Raise e ->
         (FilterWrapper_filter Filter Filter_filter by_alias self query).2 = []
         /\ (FilterWrapper_sort Filter Filter_sort by_alias self query).2 = []).
Proof.
  unfold FilterWrapper_filter, FilterWrapper_sort.
  split; [|split].
  - now intros errors ->.
  - now intros original_filter ->.
  - intros e ->. now destruct e.
Qed.

End WrapperFacts.

(** The theorems on instances and on the wrapper, on a schema with the
    fields [count] and [order_by]. *)

Lemma filtering_fields_spec_witness :
  filtering_fields (constants_for ["count"])
    (populate count_and_order [("count", VInt 5); ("order_by", tokens ["-count"])])
  = [("count", VInt 5)].
Proof.
  destruct (filtering_fields_spec (constants_for ["count"])
              (populate count_and_order
                 [("count", VInt 5); ("order_by", tokens ["-count"])]))
    as [Heq _].
  - apply (bool_decide_unpack _). vm_compute. exact I.
  - rewrite Heq. reflexivity.
Defined.


Lemma FilterWrapper_spec_witness :
  FilterWrapper_filter (closed_init count_and_order) (fun _ q => Ok ("filtered" :: q))
    false (populate count_and_order [("count", VInt 5)]) []
  = (Ok ["filtered"],
     [FilterCalled (populate count_and_order [("count", VInt 5); ("order_by", VNone)]) []])
  /\ FilterWrapper_sort (closed_init [("count", Field (TOptional TInt) (DefaultValue VNone))])
       (fun _ q => Ok ("sorted" :: q))
       false (populate count_and_order [("count", VInt 5)]) []
     = (Raise (RequestValidationError
                 [ErrorDetail "extra_forbidden" "order_by" "Extra inputs are not permitted"]),
        []).
Proof.
  split.
  - destruct (FilterWrapper_spec (closed_init count_and_order)
                (fun _ q => Ok ("filtered" :: q)) (fun _ q => Ok ("sorted" :: q)) false
                (populate count_and_order [("count", VInt 5)]) [])
      as (_ & Hok & _).
    apply Hok. reflexivity.
  - destruct (FilterWrapper_spec
                (closed_init [("count", Field (TOptional TInt) (DefaultValue VNone))])
                (fun _ q => Ok ("filtered" :: q)) (fun _ q => Ok ("sorted" :: q)) false
                (populate count_and_order [("count", VInt 5)]) [])
      as (Hfail & _ & _).
    apply Hfail. reflexivity.
Defined.


(** ** Scenarios *)

(** [order_by=["count", "-count"]] on a model with the attribute [count]:
    the message cites both tokens. *)
Example duplicate_count :
  validate_order_by (constants_for ["count"]) (tokens ["count"; "-count"]) "order_by"
  = Raise (ValueError
             "Field names can appear at most once for order_by. The following was ambiguous: count, -count.").
Proof. vm_compute. reflexivity. Qed.

(** Several ambiguous names come out in increasing order of name, whatever
    the order of the tokens. *)
Example duplicates_sorted :
  validate_order_by (constants_for ["created_at"; "name"])
    (tokens ["name"; "-created_at"; "+name"; "created_at"]) "order_by"
  = Raise (ValueError
             "Field names can appear at most once for order_by. The following was ambiguous: -created_at, created_at, name, +name.").
Proof. vm_compute. reflexivity. Qed.

(** An instance of the prefixed class, built from [{"n__count": 5}], is
    reconstructed to an instance of the original class with [count = 5]. *)
Example prefixed_instance_reconstructed :
  (inst ← closed_init (NestedFields "n" count_and_order) [("n__count", VInt 5)];
   plain_validator "n" (constants_for ["count"]) (closed_init count_and_order)
     (ModelInstance inst))
  = Ok [{| fv_name := "count"; fv_alias := None; fv_value := VInt 5; fv_set := true |};
        {| fv_name := "order_by"; fv_alias := None; fv_value := VNone; fv_set := true |}].
Proof. reflexivity. Qed.

(** The prefix is also cut from a field name that starts with it: under the
    prefix [n] the field [name] of an instance becomes the key [ame]. *)
Example field_named_like_prefix :
  (inst ← closed_init (NestedFields "n" name_only) [("n__name", VStr "x")];
   plain_validator "n" (constants_for ["name"]) (closed_init name_only)
     (ModelInstance inst))
  = Raise (ValidationError
             [ErrorDetail "extra_forbidden" "ame" "Extra inputs are not permitted"]).
Proof. reflexivity. Qed.

(** A key that no field has is refused by the closed schema. *)
Example unknown_key_refused :
  closed_init count_and_order [("count", VInt 5); ("colour", VStr "red")]
  = Raise (ValidationError
             [ErrorDetail "extra_forbidden" "colour" "Extra inputs are not permitted"]).
Proof. reflexivity. Qed.


(** * Further properties *)

(** ** The strip rule on any input *)

Section StripMore.
Context (C : Constants).
Import PyStr PyStrFacts.

(** X1. Whatever the input, the strip rule on the ordering field gives [None] or
    a list of strings that are trimmed and not empty. *)
Theorem strip_order_by_values_range value out :
  strip_order_by_values C value (ordering_field_name C) = Ok out ->
  out = VNone
  \/ exists ss, out = tokens ss /\ Forall (fun s => trimmed s /\ s <> "") ss.
Proof.
  unfold strip_order_by_values. rewrite ordering_field_is_itself.
  destruct (truthy value); simpl; [|intros [= <-]; now left].
  destruct (py_iter value) as [items|]; simpl; [|discriminate].
  destruct (strip_loop items []) as [stripped|] eqn:Hloop; simpl; [|discriminate].
  intros [= <-]. right.
  destruct (strip_loop_ok _ _ _ Hloop) as [ss [-> Hss]]. now exists ss.
Qed.

(** X2. The strip rule applied to its own result changes one thing only: the
    empty list, which a sequence of blank tokens gives, becomes [None]. *)
Theorem strip_order_by_values_again value out :
  strip_order_by_values C value (ordering_field_name C) = Ok out ->
  strip_order_by_values C out (ordering_field_name C)
  = Ok (if truthy out then out else VNone).
Proof.
  unfold strip_order_by_values at 1. rewrite ordering_field_is_itself.
  destruct (truthy value); simpl;
    [|intros [= <-]; unfold strip_order_by_values;
      now rewrite ordering_field_is_itself].
  destruct (py_iter value) as [items|]; simpl; [|discriminate].
  destruct (strip_loop items []) as [stripped|] eqn:Hloop; simpl; [|discriminate].
  intros [= <-]. destruct (strip_loop_ok _ _ _ Hloop) as [ss [-> Hss]]. simpl.
  destruct ss as [|s ss].
  - unfold strip_order_by_values. now rewrite ordering_field_is_itself.
  - change (VList (VStr <$> s :: ss)) with (tokens (s :: ss)).
    rewrite strip_order_by_values_tokens by discriminate.
    now rewrite strip_filter_fixed.
Qed.

Lemma strip_one_char c :
  strip (String c EmptyString) = if isspace c then EmptyString else String c EmptyString.
Proof. unfold strip. simpl. destruct (isspace c) eqn:Hc; simpl; now rewrite ?Hc. Qed.

Lemma stripped_chars s :
  filter (fun t => t <> "") (strip <$> chars s) = visible_chars s.
Proof.
  induction s as [|c s IH]; [reflexivity|].
  cbn [chars visible_chars]. rewrite fmap_cons, filter_cons, strip_one_char.
  destruct (isspace c).
  - rewrite decide_False by (intros H; now apply H). exact IH.
  - rewrite decide_True by discriminate. now rewrite IH.
Qed.

(** X3. A string instead of a list is read character by character: the result
    is the list of its characters that are no white space. *)
Theorem strip_order_by_values_str s :
  s <> "" ->
  strip_order_by_values C (VStr s) (ordering_field_name C)
  = Ok (tokens (visible_chars s)).
Proof.
  intros Hs. unfold strip_order_by_values. rewrite ordering_field_is_itself.
  rewrite truthy_str, bool_decide_eq_true_2 by exact Hs.
  cbn [negb py_iter mbind result_bind].
  rewrite strip_loop_tokens, stripped_chars. reflexivity.
Qed.

Lemma strip_loop_not_str pre x post acc :
  is_str x = false ->
  strip_loop ((VStr <$> pre) ++ x :: post) acc
  = Raise (AttributeError
             ("'" +:+ type_name x +:+ "' object has no attribute 'strip'")).
Proof.
  intros Hx. revert acc. induction pre as [|t pre IH]; intros acc.
  - destruct x; try discriminate; reflexivity.
  - rewrite fmap_cons. cbn [app strip_loop as_str mbind result_bind].
    destruct (truthy _); apply IH.
Qed.

(** X4. The strip rule fails on what it cannot read: a number or a boolean that
    is not false is not iterable, and in a list the first item that is no
    string has no [strip]. *)
Theorem strip_order_by_values_errors :
  (forall z, z <> 0%Z ->
             strip_order_by_values C (VInt z) (ordering_field_name C)
             = Raise (TypeError "'int' object is not iterable"))
  /\ strip_order_by_values C (VBool true) (ordering_field_name C)
     = Raise (TypeError "'bool' object is not iterable")
  /\ (forall pre x post,
         is_str x = false ->
         strip_order_by_values C (VList ((VStr <$> pre) ++ x :: post))
           (ordering_field_name C)
         = Raise (AttributeError
                    ("'" +:+ type_name x +:+ "' object has no attribute 'strip'"))).
Proof.
  unfold strip_order_by_values. rewrite ordering_field_is_itself. repeat split.
  - intros z Hz. cbn [truthy]. destruct (Z.eqb_spec z 0); [contradiction|]. reflexivity.
  - intros pre x post Hx.
    assert (truthy (VList ((VStr <$> pre) ++ x :: post)) = true) as ->
      by (now destruct pre).
    cbn [negb py_iter mbind result_bind]. now rewrite strip_loop_not_str.
Qed.

End StripMore.

(** ** The validate rule: what is accepted, what is listed *)

Section ValidateMore.
Context (C : Constants).
Import PyStr PyStrFacts.

Lemma first_failure {A} (P : A -> Prop) `{forall x, Decision (P x)} (l : list A) :
  ~ Forall P l ->
  exists pre t post, l = pre ++ t :: post /\ Forall P pre /\ ~ P t.
Proof.
  induction l as [|x l IH]; intros Hnot; [destruct Hnot; constructor|].
  destruct (decide (P x)) as [Hx|Hx].
  - destruct IH as (pre & t & post & -> & Hpre & Ht).
    + intros Hall. apply Hnot. now constructor.
    + exists (x :: pre), t, post. repeat split; [now constructor | exact Ht].
  - exists [], x, l. repeat split; [constructor | exact Hx].
Qed.

(** X5. A non-empty sequence of tokens passes the validate rule exactly when
    every field name is an attribute of the target model and no field name
    occurs twice; it then comes back as it is, markers included. *)
Theorem validate_order_by_accepts toks out :
  toks <> [] ->
  validate_order_by C (tokens toks) (ordering_field_name C) = Ok out
  <-> out = tokens toks
      /\ Forall (fun t => hasattr (model C) (direction_free t) = true) toks
      /\ NoDup (direction_free <$> toks).
Proof.
  intros Hne. split.
  - intros Hrun.
    destruct (decide (Forall (fun t => hasattr (model C) (direction_free t) = true) toks))
      as [Hall|Hnot].
    + destruct (validate_order_by_valid C toks Hne Hall) as [Hok Hdup].
      destruct (decide (NoDup (direction_free <$> toks))) as [Hnd|Hnd].
      * rewrite (Hok Hnd) in Hrun. injection Hrun as <-. auto.
      * destruct (Hdup Hnd) as (ns & _ & Hfail). congruence.
    + destruct (first_failure _ toks Hnot) as (pre & t & post & -> & Hpre & Ht).
      apply not_true_is_false in Ht.
      rewrite (validate_order_by_invalid C pre t post Hpre Ht) in Hrun. discriminate.
  - intros (-> & Hall & Hnd).
    now destruct (validate_order_by_valid C toks Hne Hall) as [Hok _]; apply Hok.
Qed.

Lemma filter_disjoint {A} (P Q : A -> Prop)
    `{forall x, Decision (P x)} `{forall x, Decision (Q x)} (l : list A) :
  (forall x, P x -> Q x -> False) ->
  filter (fun x => P x \/ Q x) l ≡ₚ filter P l ++ filter Q l.
Proof.
  intros Hdisj. induction l as [|x l IH]; [reflexivity|].
  rewrite !filter_cons.
  destruct (decide (P x)) as [Hp|Hp], (decide (Q x)) as [Hq|Hq].
  - destruct (Hdisj x Hp Hq).
  - rewrite decide_True by now left. simpl. now rewrite IH.
  - rewrite decide_True by now right. rewrite IH.
    apply Permutation_middle.
  - rewrite decide_False by tauto. exact IH.
Qed.

Lemma filter_none {A} (P : A -> Prop) `{forall x, Decision (P x)} (l : list A) :
  (forall x, ~ P x) -> filter P l = [].
Proof.
  intros Hnone. induction l as [|x l IH]; [reflexivity|].
  rewrite filter_cons, decide_False by apply Hnone. exact IH.
Qed.

(** The tokens listed name by name are the tokens whose name is listed. *)
Lemma named_bind_filter (base : string -> string) (ns toks : list string) :
  NoDup ns ->
  (n ← ns; tokens_named base toks n) ≡ₚ filter (fun t => base t ∈ ns) toks.
Proof.
  unfold tokens_named. induction 1 as [|n ns Hfresh Hnd IH].
  - rewrite filter_none; [reflexivity|]. intros x Hx. inversion Hx.
  - rewrite bind_cons, IH.
    rewrite <- (filter_disjoint (fun t => base t = n) (fun t => base t ∈ ns)).
    + erewrite list_filter_iff; [reflexivity|].
      intros t. simpl. rewrite elem_of_cons. tauto.
    + intros t <- Hin. contradiction.
Qed.

(** X6. When every field name is an attribute and some name occurs twice, the
    error lists every token whose field name occurs more than once, each
    as often as it occurs, and no other token. *)
Theorem ambiguous_message_lists_duplicates toks :
  Forall (fun t => hasattr (model C) (direction_free t) = true) toks ->
  ~ NoDup (direction_free <$> toks) ->
  exists listed,
    validate_order_by C (tokens toks) (ordering_field_name C)
    = Raise (ValueError (ambiguous_message C listed))
    /\ listed ≡ₚ filter (fun t => 1 < length (tokens_named direction_free toks
                                                (direction_free t))) toks.
Proof.
  intros Hall Hdup.
  assert (toks <> []) as Hne by (intros ->; apply Hdup; constructor).
  destruct (validate_order_by_valid C toks Hne Hall) as [_ Hrule].
  destruct (Hrule Hdup) as (ns & (_ & Hnd & Hmem) & Hrun).
  eexists. split; [exact Hrun|].
  rewrite named_bind_filter by exact Hnd.
  erewrite list_filter_iff; [reflexivity|].
  intros t. simpl. apply Hmem.
Qed.

Lemma validate_order_by_tokens_run toks :
  toks <> [] ->
  (validate_order_by C (tokens toks) (ordering_field_name C) = Ok (tokens toks)
   /\ Forall (fun t => hasattr (model C) (direction_free t) = true) toks
   /\ NoDup (direction_free <$> toks))
  \/ ((exists e, validate_order_by C (tokens toks) (ordering_field_name C) = Raise e)
      /\ ~ (Forall (fun t => hasattr (model C) (direction_free t) = true) toks
            /\ NoDup (direction_free <$> toks))).
Proof.
  intros Hne.
  destruct (decide (Forall (fun t => hasattr (model C) (direction_free t) = true) toks))
    as [Hall|Hnot].
  - destruct (validate_order_by_valid C toks Hne Hall) as [Hok Hdup].
    destruct (decide (NoDup (direction_free <$> toks))) as [Hnd|Hnd].
    + left. auto.
    + right. destruct (Hdup Hnd) as (ns & _ & Hfail). split; [eauto | tauto].
  - right. split; [|tauto].
    destruct (first_failure _ toks Hnot) as (pre & t & post & -> & Hpre & Ht).
    apply not_true_is_false in Ht.
    rewrite (validate_order_by_invalid C pre t post Hpre Ht). eauto.
Qed.

(** X7. In the order in which the class runs the two rules, a non-empty
    sequence of tokens is accepted exactly when the validate rule accepts
    it as it comes, white space included: every token, its markers
    removed, must be an attribute of the target model, and no such name
    may occur twice.  What comes out is then the sequence of the trimmed,
    non-blank tokens. *)
Theorem validate_then_strip_accepts toks out :
  toks <> [] ->
  validate_then_strip C (tokens toks) = Ok out
  <-> out = tokens (stripped_tokens toks)
      /\ Forall (fun t => hasattr (model C) (direction_free t) = true) toks
      /\ NoDup (direction_free <$> toks).
Proof.
  intros Hne. unfold validate_then_strip.
  destruct (validate_order_by_tokens_run toks Hne)
    as [(Hrun & Hall & Hnd)|[[e Hrun] Hnot]]; rewrite Hrun; cbn [mbind result_bind].
  - rewrite strip_order_by_values_tokens by exact Hne. fold (stripped_tokens toks).
    split.
    + intros [= <-]. auto.
    + now intros (-> & _ & _).
  - split; [discriminate|]. intros (_ & Hall & Hnd). destruct Hnot. auto.
Qed.

Lemma isspace_not_marker c :
  isspace c = true -> Ascii.eqb c "+" = false /\ Ascii.eqb c "-" = false.
Proof.
  destruct c as [[] [] [] [] [] [] [] []]; vm_compute; intros H;
    try discriminate H; split; reflexivity.
Qed.

Lemma first_char_remove_char d s c :
  first_char s = Some c -> Ascii.eqb c d = false ->
  first_char (remove_char d s) = Some c.
Proof.
  destruct s as [|a s]; [discriminate|]. simpl. intros [= ->] Hc. now rewrite Hc.
Qed.

Lemma last_char_remove_char d s c :
  last_char s = Some c -> Ascii.eqb c d = false ->
  last_char (remove_char d s) = Some c.
Proof.
  intros Hlast Hc. induction s as [|a s IH]; [discriminate|].
  destruct s as [|b s].
  - simpl in Hlast. injection Hlast as ->. simpl. now rewrite Hc.
  - specialize (IH Hlast).
    change (remove_char d (String a (String b s)))
      with (if Ascii.eqb a d then remove_char d (String b s)
            else String a (remove_char d (String b s))).
    destruct (Ascii.eqb a d); [exact IH|].
    destruct (remove_char d (String b s)); [discriminate | exact IH].
Qed.

(** A token whose field name has no white space at its ends and is not
    empty has none either and is not empty. *)
Lemma trimmed_direction_free tok :
  trimmed (direction_free tok) -> direction_free tok <> "" ->
  trimmed tok /\ tok <> "".
Proof.
  intros [Hfirst Hlast] Hne. split; [|now intros ->].
  unfold direction_free in *. split; intros c Hc.
  - destruct (isspace c) eqn:Hspace; [|reflexivity].
    destruct (isspace_not_marker c Hspace) as [Hplus Hminus].
    rewrite <- Hspace. apply Hfirst.
    now apply first_char_remove_char; [apply first_char_remove_char|].
  - destruct (isspace c) eqn:Hspace; [|reflexivity].
    destruct (isspace_not_marker c Hspace) as [Hplus Hminus].
    rewrite <- Hspace. apply Hlast.
    now apply last_char_remove_char; [apply last_char_remove_char|].
Qed.

(** X17. When no attribute name of the target model is empty or has white
    space at its ends, a non-empty sequence of tokens that the class
    accepts comes out as it went in: the strip rule, which runs after the
    validate rule, finds nothing to trim, and a token with white space
    around it is refused. *)
Theorem validate_then_strip_unchanged toks out :
  (forall n, n ∈ model C -> trimmed n /\ n <> "") ->
  toks <> [] ->
  validate_then_strip C (tokens toks) = Ok out
  <-> out = tokens toks
      /\ Forall (fun t => hasattr (model C) (direction_free t) = true) toks
      /\ NoDup (direction_free <$> toks).
Proof.
  intros Hattrs Hne.
  assert (Forall (fun t => hasattr (model C) (direction_free t) = true) toks ->
          stripped_tokens toks = toks) as Hsame.
  { intros Hall. unfold stripped_tokens. apply strip_filter_fixed.
    eapply Forall_impl; [exact Hall|]. intros t Ht.
    apply bool_decide_eq_true in Ht. destruct (Hattrs _ Ht).
    now apply trimmed_direction_free. }
  unfold validate_then_strip.
  destruct (validate_order_by_tokens_run toks Hne)
    as [(Hrun & Hall & Hnd)|[[e Hrun] Hnot]]; rewrite Hrun; cbn [mbind result_bind].
  - rewrite strip_order_by_values_tokens by exact Hne. fold (stripped_tokens toks).
    rewrite (Hsame Hall). split.
    + intros [= <-]. auto.
    + now intros (-> & _ & _).
  - split; [discriminate|]. intros (_ & Hall & Hnd). destruct Hnot. auto.
Qed.

End ValidateMore.

(** ** [with_prefix]: the keys that reach the original schema *)

Section PrefixMore.
Context (prefix_ : string) (FilterConstants : Constants).
Context (Filter : list (string * pyval) -> result instance).
Import PyStr.

Abbreviation strip_key := (cut_prefix prefix_).

Lemma dict_get_set {V} (d : list (string * V)) k v k' :
  dict_get (dict_set d k v) k' = if String.eqb k k' then Some v else dict_get d k'.
Proof.
  induction d as [|[k0 v0] d IH]; simpl.
  - reflexivity.
  - destruct (String.eqb_spec k0 k) as [->|Hne]; simpl.
    + destruct (String.eqb k k') eqn:Hk; simpl; now rewrite ?Hk.
    + rewrite IH. destruct (String.eqb_spec k0 k') as [->|_]; [|reflexivity].
      destruct (String.eqb_spec k k'); [congruence | reflexivity].
Qed.

Lemma dict_set_keys_NoDup {V} (d : list (string * V)) k v :
  NoDup (keys d) -> NoDup (keys (dict_set d k v)).
Proof.
  unfold keys. induction d as [|[k0 v0] d IH]; simpl.
  - intros _. apply NoDup_singleton.
  - rewrite !NoDup_cons. intros [Hfresh Hnd].
    destruct (String.eqb_spec k0 k) as [->|Hne]; simpl; rewrite NoDup_cons.
    + now split.
    + split; [|now apply IH].
      intros Hin. apply list_elem_of_fmap in Hin as [[k1 v1] [-> Hin]]. simpl in *.
      assert (dict_get (dict_set d k v) k1 <> None) as Hget.
      { clear -Hin. induction (dict_set d k v) as [|[k2 v2] l IHl];
          [inversion Hin|].
        simpl. destruct (String.eqb_spec k2 k1); [discriminate|].
        apply IHl. apply elem_of_cons in Hin as [[= -> ->]|Hin]; [congruence | exact Hin]. }
      rewrite dict_get_set in Hget.
      destruct (String.eqb_spec k k1) as [->|_]; [congruence|].
      apply Hfresh. clear -Hget. induction d as [|[k2 v2] d IHd]; [now simpl in Hget|].
      simpl in *. destruct (String.eqb_spec k2 k1) as [->|_]; [left | right; auto].
Qed.

Lemma stripped_fold_get items : forall acc k,
  dict_get (foldl (fun acc '(k, v) => dict_set acc (removeprefix prefix_ k) v) acc items) k
  = match last (filter (fun kv : string * pyval => removeprefix prefix_ kv.1 = k) items) with
    | Some kv => Some kv.2
    | None => dict_get acc k
    end.
Proof.
  induction items as [|[k0 v0] items IH]; intros acc k; [reflexivity|].
  cbn [foldl]. rewrite IH, filter_cons, dict_get_set. simpl.
  destruct (decide (removeprefix prefix_ k0 = k)) as [->|Hne].
  - rewrite last_cons, String.eqb_refl. now destruct (last _).
  - now destruct (String.eqb_spec (removeprefix prefix_ k0) k).
Qed.

Lemma stripped_fold_NoDup items : forall acc : list (string * pyval),
  NoDup (keys acc) ->
  NoDup (keys (foldl (fun acc '(k, v) => dict_set acc (removeprefix prefix_ k) v)
                 acc items)).
Proof.
  induction items as [|[k0 v0] items IH]; intros acc Hacc; [exact Hacc|].
  cbn [foldl]. now apply IH, dict_set_keys_NoDup.
Qed.

(** X9. The mapping handed to the original schema has each key once; under a
    key it holds the value of the last item whose key, the prefix cut
    off, is that key. *)
Theorem stripped_keys_last_wins items :
  NoDup (keys (stripped_keys prefix_ FilterConstants items))
  /\ forall k,
       dict_get (stripped_keys prefix_ FilterConstants items) k
       = snd <$> last (filter (fun kv : string * pyval => removeprefix prefix_ kv.1 = k) items).
Proof.
  unfold stripped_keys. cbn [prefix NestedConstants]. split.
  - apply stripped_fold_NoDup. constructor.
  - intros k. rewrite stripped_fold_get. now destruct (last _).
Qed.

Lemma stripped_fold_fresh items : forall acc : list (string * pyval),
  NoDup (keys acc ++ keys (strip_key <$> items)) ->
  foldl (fun acc '(k, v) => dict_set acc (removeprefix prefix_ k) v) acc items
  = acc ++ (strip_key <$> items).
Proof.
  unfold keys. induction items as [|[k0 v0] items IH]; intros acc Hnd.
  - now rewrite app_nil_r.
  - cbn [foldl]. rewrite fmap_cons in *. unfold cut_prefix at 1 in Hnd. simpl fst in Hnd.
    rewrite dict_set_fresh.
    + rewrite IH; [now rewrite <- app_assoc|].
      rewrite fmap_app, <- app_assoc. exact Hnd.
    + apply NoDup_app in Hnd as (_ & Hdisj & _). intros Hin.
      apply (Hdisj _ Hin). left.
Qed.

Lemma removeprefix_other k : startswith prefix_ k = false -> removeprefix prefix_ k = k.
Proof. unfold removeprefix. now intros ->. Qed.

Lemma model_dump_all self :
  model_dump false false false self = name_and_value <$> self.
Proof. induction self as [|fv self IH]; [reflexivity|]. simpl. now f_equal. Qed.

(** X10. Keys that do not start with the prefix reach the original schema as
    they are: a mapping with distinct such keys is handed over unchanged,
    and an instance with such field names is handed over as the mapping of
    all its fields, the ones that were not supplied included. *)
Theorem plain_validator_other_keys :
  (forall items,
      NoDup (keys items) ->
      Forall (fun kv => startswith prefix_ kv.1 = false) items ->
      plain_validator prefix_ FilterConstants Filter (Data (VDict items))
      = Filter items)
  /\ (forall self,
         NoDup (fv_name <$> self) ->
         Forall (fun fv => startswith prefix_ (fv_name fv) = false) self ->
         plain_validator prefix_ FilterConstants Filter (ModelInstance self)
         = Filter (name_and_value <$> self)).
Proof.
  assert (forall items,
             NoDup (keys items) ->
             Forall (fun kv => startswith prefix_ kv.1 = false) items ->
             stripped_keys prefix_ FilterConstants items = items) as Hsame.
  { intros items Hnd Hall.
    assert (strip_key <$> items = items) as Hid.
    { clear Hnd. induction Hall as [|[k v] items Hk _ IH]; [reflexivity|].
      rewrite fmap_cons, IH. unfold cut_prefix. simpl in *.
      now rewrite removeprefix_other. }
    unfold stripped_keys. cbn [prefix NestedConstants].
    rewrite stripped_fold_fresh; rewrite Hid; [reflexivity | exact Hnd]. }
  split.
  - intros items Hnd Hall. unfold plain_validator. now rewrite Hsame.
  - intros self Hnd Hall. unfold plain_validator. rewrite model_dump_all.
    rewrite Hsame; [reflexivity | |].
    + unfold keys. now rewrite <- list_fmap_compose.
    + apply Forall_fmap. exact Hall.
Qed.

Lemma field_key_generated name f :
  field_key name (apply_alias_generator prefix_ name f)
  = default (prefix_ +:+ "__" +:+ name) (declared_alias f).
Proof.
  unfold apply_alias_generator, declared_alias, field_key, alias_generator.
  destruct f as [ann d [a|] [[|[|p]]|]]; reflexivity.
Qed.

Lemma apply_alias_generator_again q name f :
  alias_left_to_generator f = true ->
  apply_alias_generator prefix_ name (apply_alias_generator q name f)
  = apply_alias_generator prefix_ name f.
Proof.
  unfold apply_alias_generator, alias_left_to_generator.
  destruct f as [ann d [a|] [[|[|p]]|]]; simpl; try discriminate; reflexivity.
Qed.

(** X11. The fields of the prefixed class are the fields of the original one,
    under the same names and in the same order, with the same declared
    types and defaults.  A field is read under the alias it declares
    itself when it declares one, and under prefix, two underscores and
    name otherwise, also when it had an alias from another alias
    generator: prefixing a prefixed class gives the keys of the outer
    prefix.  When no field declares an alias, distinct names give distinct
    keys. *)
Theorem nested_fields_keys fields :
  keys (NestedFields prefix_ fields) = keys fields
  /\ Forall2 (fun nf nf' =>
                nf'.1 = nf.1
                /\ fi_annotation nf'.2 = fi_annotation nf.2
                /\ fi_default nf'.2 = fi_default nf.2
                /\ field_key nf'.1 nf'.2
                   = default (prefix_ +:+ "__" +:+ nf.1) (declared_alias nf.2))
             fields (NestedFields prefix_ fields)
  /\ (forall q,
         Forall (fun nf => alias_left_to_generator nf.2 = true) fields ->
         NestedFields prefix_ (NestedFields q fields) = NestedFields prefix_ fields)
  /\ (NoDup (keys fields) ->
      Forall (fun nf => declared_alias nf.2 = None) fields ->
      NoDup ((fun nf => field_key nf.1 nf.2) <$> NestedFields prefix_ fields)).
Proof.
  unfold NestedFields, keys. split; [|split; [|split]].
  - rewrite <- list_fmap_compose. apply list_fmap_ext. now intros i [n f] _.
  - induction fields as [|[n f] fields IH]; constructor; [|exact IH].
    simpl. repeat split.
    + unfold apply_alias_generator. now destruct (_ || _).
    + unfold apply_alias_generator. now destruct (_ || _).
    + apply field_key_generated.
  - intros q Hall. rewrite <- list_fmap_compose.
    induction Hall as [|[n f] fields Hf _ IH]; [reflexivity|].
    rewrite !fmap_cons, IH. simpl in *. now rewrite apply_alias_generator_again.
  - intros Hnd Hall. rewrite <- list_fmap_compose. revert Hnd.
    induction Hall as [|[n f] fields Hf Hall IH]; intros Hnd; [constructor|].
    rewrite fmap_cons, NoDup_cons in Hnd. destruct Hnd as [Hfresh Hnd].
    rewrite fmap_cons, NoDup_cons.
    split; [|now apply IH].
    intros Hin. apply list_elem_of_fmap in Hin as [[n' f'] [Heq Hin]].
    simpl in Heq, Hf.
    assert (declared_alias f' = None) as Hf'.
    { rewrite Forall_forall in Hall. exact (Hall _ Hin). }
    rewrite !field_key_generated, Hf, Hf' in Heq.
    simpl in Heq. apply (inj (String.app prefix_)) in Heq.
    apply (inj (String.app "__")) in Heq. subst n'.
    apply Hfresh. now apply (list_elem_of_fmap_2 fst _ (n, f')).
Qed.

End PrefixMore.

(** ** [_list_to_str_fields]: when it returns, and what it keeps *)

Section AdapterMore.
Import PyStr.

Lemma join_items_ok i items :
  forallb is_str items = true -> exists parts, join_items i items = Ok parts.
Proof.
  revert i. induction items as [|x items IH]; intros i; [now exists []|].
  destruct x; try discriminate. simpl. intros Hall.
  destruct (IH (S i) Hall) as [parts ->]. now eexists.
Qed.

Lemma join_items_fail i items :
  forallb is_str items = false -> exists msg, join_items i items = Raise (TypeError msg).
Proof.
  revert i. induction items as [|x items IH]; intros i; [discriminate|].
  destruct x; simpl; try (intros _; now eexists).
  intros Hall. destruct (IH (S i) Hall) as [msg ->]. now eexists.
Qed.

Lemma py_join_chars sep s : py_join sep (VStr s) = Ok (VStr (join sep (chars s))).
Proof.
  unfold py_join. cbn [py_iter mbind result_bind]. now rewrite join_items_tokens.
Qed.

Lemma py_join_dict sep d : py_join sep (VDict d) = Ok (VStr (join sep (keys d))).
Proof.
  unfold py_join, keys. cbn [py_iter mbind result_bind].
  replace ((fun kv : string * pyval => VStr kv.1) <$> d) with (VStr <$> (fst <$> d))
    by (rewrite <- list_fmap_compose; reflexivity).
  now rewrite join_items_tokens.
Qed.

(** The loop body fails on one kind of field only, and with a [TypeError]. *)
Lemma adapted_field_result f :
  (join_ready f -> exists e, adapted_field f = Ok e)
  /\ (~ join_ready f -> exists msg, adapted_field f = Raise (TypeError msg)).
Proof.
  unfold join_ready, adapted_field.
  destruct (is_list_type _); [|split; [now eexists | intros H; destruct H; discriminate]].
  destruct (fi_default f) as [|v]; [split; [now eexists | intros H; destruct H; discriminate]|].
  destruct v as [| | |s|l|d]; cbn [is_iterable];
    try (split; [now eexists | intros H; destruct H; discriminate]).
  - rewrite py_join_chars. split; [now eexists | intros H; destruct H; discriminate].
  - destruct (forallb is_str l) eqn:Hl.
    + split; [|intros H; destruct H; intros _ l' [= <-]; exact Hl].
      intros _. unfold py_join. cbn [py_iter mbind result_bind].
      destruct (join_items_ok 0 l Hl) as [parts ->]. now eexists.
    + split.
      * intros H. specialize (H eq_refl l eq_refl). congruence.
      * intros _. unfold py_join. cbn [py_iter mbind result_bind].
        destruct (join_items_fail 0 l Hl) as [msg ->]. now eexists.
  - rewrite py_join_dict. split; [now eexists | intros H; destruct H; discriminate].
Qed.

Lemma join_ready_dec f : join_ready f \/ ~ join_ready f.
Proof.
  unfold join_ready.
  destruct (is_list_type _); [|left; discriminate].
  destruct (fi_default f) as [|[| | | |l|]]; try (left; discriminate).
  destruct (forallb is_str l) eqn:Hl.
  - left. now intros _ l' [= <-].
  - right. intros H. specialize (H eq_refl l eq_refl). congruence.
Qed.

Lemma list_to_str_loop_raises fields : forall ret e,
  list_to_str_loop fields ret = Raise e -> exists msg, e = TypeError msg.
Proof.
  induction fields as [|[name f] fields IH]; intros ret e; [discriminate|].
  cbn [list_to_str_loop].
  destruct (join_ready_dec f) as [Hf|Hf].
  - destruct (proj1 (adapted_field_result f) Hf) as [entry ->].
    cbn [mbind result_bind]. apply IH.
  - destruct (proj2 (adapted_field_result f) Hf) as [msg ->].
    cbn [mbind result_bind]. intros [= <-]. now exists msg.
Qed.

(** X12. The adapter returns a schema exactly when, in every list-typed field
    whose default is a list, the items of that list are all strings; when
    it does not return, what it raises is a [TypeError]. *)
Theorem list_to_str_fields_returns fields :
  NoDup (keys fields) ->
  ((exists adapted, _list_to_str_fields fields = Ok adapted)
   <-> Forall (fun nf => join_ready nf.2) fields)
  /\ (forall e, _list_to_str_fields fields = Raise e -> exists msg, e = TypeError msg).
Proof.
  intros Hnd. split; [|intros e; apply list_to_str_loop_raises].
  split.
  - intros [adapted Hrun]. apply list_to_str_fields_adapted in Hrun; [|exact Hnd].
    clear Hnd. induction Hrun as [|[n f] ne fields adapted [_ He] _ IH]; constructor;
      [|exact IH].
    simpl in *. destruct (join_ready_dec f) as [Hf|Hf]; [exact Hf|].
    destruct (proj2 (adapted_field_result f) Hf) as [msg Hmsg]. congruence.
  - intros Hall.
    assert (exists adapted, adapted_from fields adapted) as [adapted Had].
    { clear Hnd. induction Hall as [|[n f] fields Hf _ [adapted IH]].
      - exists []. constructor.
      - destruct (proj1 (adapted_field_result f) Hf) as [e He].
        exists ((n, e) :: adapted). constructor; [now split | exact IH]. }
    exists adapted. now apply list_to_str_fields_adapted.
Qed.

Lemma adapted_field_shape f ty fi :
  adapted_field f = Ok (ty, fi) ->
  fi_annotation fi = fi_annotation f
  /\ fi_alias fi = fi_alias f
  /\ (is_list_type (resolve_annotation (fi_annotation f)) = false ->
      ty = fi_annotation f /\ fi = f)
  /\ (is_list_type (resolve_annotation (fi_annotation f)) = true ->
      ty = (if is_required f then TStr else TOptional TStr)
      /\ (is_iterable (fi_default f) = false -> fi = f)).
Proof.
  unfold adapted_field.
  destruct (is_list_type _).
  - destruct (is_iterable (fi_default f)) eqn:Hit.
    + destruct (fi_default f) as [|v]; [discriminate|].
      destruct (py_join "," v); simpl; [|discriminate].
      intros [= <- <-]. repeat split; try discriminate.
    + intros [= <- <-]. repeat split; try discriminate.
  - intros [= <- <-]. repeat split; try discriminate.
Qed.

(** X13. Whenever the adapter returns, the adapted schema has the names of the
    original one in the same order; each field is as required as before
    and keeps its alias; a field that is no list keeps its declared type
    and its default; a list field gets the type string, optional unless
    the field is required. *)
Theorem list_to_str_fields_preserves fields adapted :
  NoDup (keys fields) ->
  _list_to_str_fields fields = Ok adapted ->
  keys adapted = keys fields
  /\ Forall2 (fun nf ne =>
                let f := nf.2 in
                is_required ne.2.2 = is_required f
                /\ fi_alias ne.2.2 = fi_alias f
                /\ (is_list_type (resolve_annotation (fi_annotation f)) = false ->
                    ne.2 = (fi_annotation f, f))
                /\ (is_list_type (resolve_annotation (fi_annotation f)) = true ->
                    ne.2.1 = (if is_required f then TStr else TOptional TStr)))
             fields adapted.
Proof.
  intros Hnd Hrun. apply list_to_str_fields_adapted in Hrun; [|exact Hnd].
  split; [now apply adapted_from_keys|].
  clear Hnd. induction Hrun as [|[n f] [n' [ty fi]] fields adapted [_ He] _ IH];
    constructor; [|exact IH].
  simpl in *. destruct (adapted_field_shape f ty fi He) as (_ & Halias & Hother & Hlist).
  repeat split.
  - now apply (adapted_field_required f ty).
  - exact Halias.
  - intros Hl. destruct (Hother Hl) as [-> ->]. reflexivity.
  - intros Hl. now destruct (Hlist Hl).
Qed.

(** X14. A list-typed field whose default is a string gets as default the
    characters of that string joined by commas. *)
Theorem list_to_str_fields_string_default fields adapted name f s :
  NoDup (keys fields) ->
  _list_to_str_fields fields = Ok adapted ->
  (name, f) ∈ fields ->
  is_list_type (resolve_annotation (fi_annotation f)) = true ->
  fi_default f = DefaultValue (VStr s) ->
  dict_get adapted name
  = Some (TOptional TStr, with_default f (DefaultValue (VStr (join "," (chars s))))).
Proof.
  intros Hnd Hrun Hin Hlist Hdefault.
  apply list_to_str_fields_adapted in Hrun; [|exact Hnd].
  destruct (adapted_from_lookup fields adapted name f Hnd Hrun Hin) as (e & He & Hget).
  rewrite Hget. f_equal. revert He. unfold adapted_field, is_required.
  rewrite Hlist, Hdefault. cbn [is_iterable]. rewrite py_join_chars.
  cbn [mbind result_bind]. now intros [= <-].
Qed.

(** X15. A union that has, [None] apart, no alternative or more than one is left
    alone: the field keeps its declared type and its default, also when
    one alternative is a list and whatever the default holds. *)
Theorem list_to_str_fields_wide_union fields adapted name f args :
  NoDup (keys fields) ->
  _list_to_str_fields fields = Ok adapted ->
  (name, f) ∈ fields ->
  fi_annotation f = TUnion args ->
  length (remove_none args) <> 1 ->
  dict_get adapted name = Some (fi_annotation f, f).
Proof.
  intros Hnd Hrun Hin Hann Hwide.
  apply list_to_str_fields_adapted in Hrun; [|exact Hnd].
  destruct (adapted_from_lookup fields adapted name f Hnd Hrun Hin) as (e & He & Hget).
  rewrite Hget. f_equal.
  rewrite adapted_field_other in He; [now injection He|].
  rewrite Hann. unfold resolve_annotation.
  destruct (remove_none args) as [|a [|b rest]]; simpl in *; congruence.
Qed.

End AdapterMore.

(** ** Items that are no strings *)

Section NotStr.
Context (C : Constants).

Lemma validate_loop_not_str pre x post : forall st,
  Forall (fun t => hasattr (model C) (direction_free t) = true) pre ->
  is_str x = false ->
  validate_loop C ((VStr <$> pre) ++ x :: post) st
  = Raise (AttributeError
             ("'" +:+ type_name x +:+ "' object has no attribute 'replace'")).
Proof.
  induction pre as [|t pre IH]; intros st Hall Hx.
  - destruct x; try discriminate; reflexivity.
  - apply Forall_cons in Hall as [Ht Hall].
    rewrite fmap_cons. cbn [app validate_loop as_str mbind result_bind].
    rewrite Ht. cbn [negb]. now apply IH.
Qed.

Lemma validate_loop_unknown_before pre t rest : forall st,
  Forall (fun t => hasattr (model C) (direction_free t) = true) pre ->
  hasattr (model C) (direction_free t) = false ->
  validate_loop C ((VStr <$> pre) ++ VStr t :: rest) st
  = Raise (ValueError (invalid_field_message (direction_free t))).
Proof.
  induction pre as [|p pre IH]; intros st Hall Ht.
  - simpl. now rewrite Ht.
  - apply Forall_cons in Hall as [Hp Hall].
    rewrite fmap_cons. cbn [app validate_loop as_str mbind result_bind].
    rewrite Hp. cbn [negb]. now apply IH.
Qed.

(** X8. In a list, an item that is no string makes the validate rule fail
    with an attribute error, once the tokens before it are found to name
    attributes, and the class, which runs the validate rule first, fails
    in the same way; when a token before the item names no attribute, the
    class fails on that token, with the error for an unknown field. *)
Theorem order_by_not_str pre x post :
  is_str x = false ->
  (Forall (fun t => hasattr (model C) (direction_free t) = true) pre ->
   validate_order_by C (VList ((VStr <$> pre) ++ x :: post)) (ordering_field_name C)
   = Raise (AttributeError
              ("'" +:+ type_name x +:+ "' object has no attribute 'replace'"))
   /\ validate_then_strip C (VList ((VStr <$> pre) ++ x :: post))
      = Raise (AttributeError
                 ("'" +:+ type_name x +:+ "' object has no attribute 'replace'")))
  /\ (forall known t later,
         pre = known ++ t :: later ->
         Forall (fun t => hasattr (model C) (direction_free t) = true) known ->
         hasattr (model C) (direction_free t) = false ->
         validate_then_strip C (VList ((VStr <$> pre) ++ x :: post))
         = Raise (ValueError (invalid_field_message (direction_free t)))).
Proof.
  intros Hx.
  assert (truthy (VList ((VStr <$> pre) ++ x :: post)) = true) as Htrue
    by (now destruct pre).
  split.
  - intros Hall.
    assert (validate_order_by C (VList ((VStr <$> pre) ++ x :: post))
              (ordering_field_name C)
            = Raise (AttributeError
                       ("'" +:+ type_name x +:+ "' object has no attribute 'replace'")))
      as Hrun.
    { unfold validate_order_by. rewrite ordering_field_is_itself, Htrue.
      cbn [negb py_iter mbind result_bind]. now rewrite validate_loop_not_str. }
    split; [exact Hrun|]. unfold validate_then_strip. now rewrite Hrun.
  - intros known t later -> Hknown Ht.
    unfold validate_then_strip, validate_order_by.
    rewrite ordering_field_is_itself, Htrue.
    cbn [negb py_iter mbind result_bind].
    rewrite fmap_app, fmap_cons, <- app_assoc. cbn [app].
    now rewrite validate_loop_unknown_before.
Qed.

End NotStr.

(** ** A schema without ordering field *)

(** X16. When the constants name an ordering field that the schema does not
    have, [filtering_fields] still answers, with every supplied field that
    is not [None]; [ordering_values] raises, unless the name is another
    attribute of the instance. *)
Theorem filtering_without_ordering_field (C : Constants) (cls : pyclass)
    (self : instance) :
  ordering_field_name C ∉ fv_name <$> self ->
  filtering_fields C self = model_dump false true true self
  /\ (forall fv, fv ∈ self -> fv_set fv = true -> is_none (fv_value fv) = false ->
                 (fv_name fv, fv_value fv) ∈ filtering_fields C self)
  /\ (ordering_field_name C ∉ keys (properties cls) ->
      ordering_field_name C ∉ keys (members cls) ->
      ordering_values C cls self
      = Raise (AttributeError (ordering_not_defined_message C))).
Proof.
  intros Hmissing.
  assert (filtering_fields C self = model_dump false true true self) as Heq.
  { unfold filtering_fields. apply dict_pop_fresh. intros Hin. apply Hmissing.
    now apply (model_dump_keys false true true self). }
  split; [exact Heq|]. split.
  - intros fv Hin Hset Hnone. rewrite Heq. unfold model_dump.
    apply list_elem_of_omap. exists fv. split; [exact Hin|].
    now rewrite Hset, Hnone.
  - intros Hprop Hmember. now apply ordering_values_no_attribute.
Qed.

(** ** The further properties on concrete requests *)

Lemma strip_order_by_values_range_witness :
  tokens ["-name"; "count"] = VNone
  \/ exists ss, tokens ["-name"; "count"] = tokens ss
                /\ Forall (fun s => PyStr.trimmed s /\ s <> "") ss.
Proof.
  apply (strip_order_by_values_range (constants_for ["name"; "count"])
           (tokens [" -name"; "  "; "count "])).
  vm_compute. reflexivity.
Defined.

Lemma strip_order_by_values_again_witness :
  strip_order_by_values (constants_for ["name"]) (VList []) "order_by" = Ok VNone.
Proof.
  apply (strip_order_by_values_again (constants_for ["name"]) (tokens ["  "; " "])).
  vm_compute. reflexivity.
Defined.

Lemma strip_order_by_values_str_witness :
  strip_order_by_values (constants_for ["name"]) (VStr "a b") "order_by"
  = Ok (tokens ["a"; "b"]).
Proof.
  apply (strip_order_by_values_str (constants_for ["name"]) "a b"). discriminate.
Defined.

Lemma strip_order_by_values_errors_witness :
  strip_order_by_values (constants_for ["name"]) (VInt 5) "order_by"
  = Raise (TypeError "'int' object is not iterable")
  /\ strip_order_by_values (constants_for ["name"])
       (VList [VStr "name"; VInt 1; VStr "count"]) "order_by"
     = Raise (AttributeError "'int' object has no attribute 'strip'").
Proof.
  destruct (strip_order_by_values_errors (constants_for ["name"]))
    as (Hint & _ & Hitem).
  split.
  - apply Hint. discriminate.
  - apply (Hitem ["name"] (VInt 1) [VStr "count"]). reflexivity.
Defined.

Lemma validate_order_by_accepts_witness :
  validate_order_by (constants_for ["name"; "count"]) (tokens ["-name"; "+count"])
    "order_by"
  = Ok (tokens ["-name"; "+count"]).
Proof.
  apply (validate_order_by_accepts (constants_for ["name"; "count"])
           ["-name"; "+count"]).
  - discriminate.
  - split; [reflexivity|]. split.
    + repeat constructor.
    + apply (bool_decide_unpack _). vm_compute. exact I.
Defined.

Lemma ambiguous_message_lists_duplicates_witness :
  exists listed,
    validate_order_by (constants_for ["name"; "count"])
      (tokens ["name"; "count"; "-name"]) "order_by"
    = Raise (ValueError (ambiguous_message (constants_for ["name"; "count"]) listed))
    /\ listed ≡ₚ filter (fun t => 1 < length (tokens_named direction_free
                                                ["name"; "count"; "-name"]
                                                (direction_free t)))
                   ["name"; "count"; "-name"].
Proof.
  apply (ambiguous_message_lists_duplicates (constants_for ["name"; "count"])
           ["name"; "count"; "-name"]).
  - repeat constructor.
  - apply (bool_decide_unpack _). vm_compute. exact I.
Defined.

Lemma validate_then_strip_accepts_witness :
  validate_then_strip (constants_for ["name"; "count"]) (tokens ["-name"; "+count"])
  = Ok (tokens ["-name"; "+count"]).
Proof.
  apply (validate_then_strip_accepts (constants_for ["name"; "count"])
           ["-name"; "+count"]).
  - discriminate.
  - split; [reflexivity|]. split.
    + repeat constructor.
    + apply (bool_decide_unpack _). vm_compute. exact I.
Defined.

Lemma validate_then_strip_unchanged_witness :
  validate_then_strip (constants_for ["name"; "count"]) (tokens ["-name"; "+count"])
  = Ok (tokens ["-name"; "+count"]).
Proof.
  apply (validate_then_strip_unchanged (constants_for ["name"; "count"])
           ["-name"; "+count"]).
  - intros n Hn. apply elem_of_list_to_set in Hn.
    apply elem_of_cons in Hn as [->|Hn]; [|apply elem_of_cons in Hn as [->|Hn]].
    + split; [split; intros c [= <-]; reflexivity | discriminate].
    + split; [split; intros c [= <-]; reflexivity | discriminate].
    + inversion Hn.
  - discriminate.
  - split; [reflexivity|]. split.
    + repeat constructor.
    + apply (bool_decide_unpack _). vm_compute. exact I.
Defined.

Lemma order_by_not_str_witness :
  validate_then_strip (constants_for ["name"]) (VList [VStr "name"; VNone])
  = Raise (AttributeError "'NoneType' object has no attribute 'replace'")
  /\ validate_then_strip (constants_for ["name"]) (VList [VStr "zzz"; VNone])
     = Raise (ValueError "zzz is not a valid ordering field.").
Proof.
  split.
  - apply (order_by_not_str (constants_for ["name"]) ["name"] VNone []);
      [reflexivity | repeat constructor].
  - apply (proj2 (order_by_not_str (constants_for ["name"]) ["zzz"] VNone [] eq_refl)
             [] "zzz" []); [reflexivity | constructor | reflexivity].
Defined.

Lemma plain_validator_other_keys_witness :
  plain_validator "n" (constants_for ["count"]) (closed_init count_and_order)
    (Data (VDict [("count", VInt 5)]))
  = closed_init count_and_order [("count", VInt 5)]
  /\ plain_validator "n" (constants_for ["count"]) (closed_init count_and_order)
       (ModelInstance (populate count_and_order [("count", VInt 5)]))
     = closed_init count_and_order [("count", VInt 5); ("order_by", VNone)].
Proof.
  destruct (plain_validator_other_keys "n" (constants_for ["count"])
              (closed_init count_and_order)) as [Hdata Hinst].
  split.
  - apply Hdata; [apply (bool_decide_unpack _); vm_compute; exact I|].
    repeat constructor.
  - apply (Hinst (populate count_and_order [("count", VInt 5)]));
      [apply (bool_decide_unpack _); vm_compute; exact I|].
    repeat constructor.
Defined.

Lemma nested_fields_keys_witness :
  NoDup ((fun nf => field_key nf.1 nf.2) <$> NestedFields "n" count_and_order)
  /\ (fun nf => field_key nf.1 nf.2)
       <$> NestedFields "a" (NestedFields "b" count_and_order)
     = ["a__count"; "a__order_by"].
Proof.
  destruct (nested_fields_keys "n" count_and_order) as (_ & _ & _ & Hdistinct).
  destruct (nested_fields_keys "a" count_and_order) as (_ & _ & Hnested & _).
  split.
  - apply Hdistinct.
    + apply (bool_decide_unpack _). vm_compute. exact I.
    + repeat constructor.
  - rewrite (Hnested "b"); [reflexivity | repeat constructor].
Defined.

Lemma list_to_str_fields_returns_witness :
  exists adapted, _list_to_str_fields count_and_order = Ok adapted.
Proof.
  apply (list_to_str_fields_returns count_and_order).
  - apply (bool_decide_unpack _). vm_compute. exact I.
  - constructor; [intros Hlist; discriminate Hlist|].
    constructor; [intros _ l Hl; discriminate Hl|]. constructor.
Defined.

Lemma list_to_str_fields_preserves_witness :
  keys [("count", (TOptional TInt, Field (TOptional TInt) (DefaultValue VNone)));
        ("order_by", (TOptional TStr, Field (TOptional (TList TStr)) (DefaultValue VNone)))]
  = keys count_and_order.
Proof.
  apply (list_to_str_fields_preserves count_and_order).
  - apply (bool_decide_unpack _). vm_compute. exact I.
  - reflexivity.
Defined.

Lemma list_to_str_fields_string_default_witness :
  dict_get
    [("order_by", (TOptional TStr,
                   with_default (Field (TList TStr) (DefaultValue (VStr "age")))
                     (DefaultValue (VStr "a,g,e"))))]
    "order_by"
  = Some (TOptional TStr,
          with_default (Field (TList TStr) (DefaultValue (VStr "age")))
            (DefaultValue (VStr (PyStr.join "," (PyStr.chars "age"))))).
Proof.
  apply (list_to_str_fields_string_default
           [("order_by", Field (TList TStr) (DefaultValue (VStr "age")))]
           _ "order_by" (Field (TList TStr) (DefaultValue (VStr "age"))) "age").
  - apply (bool_decide_unpack _). vm_compute. exact I.
  - reflexivity.
  - left.
  - reflexivity.
  - reflexivity.
Defined.

Lemma list_to_str_fields_wide_union_witness :
  dict_get
    [("ids", (TUnion [TInt; TList TInt; TNoneType],
              Field (TUnion [TInt; TList TInt; TNoneType])
                (DefaultValue (VList [VInt 1; VInt 2]))))]
    "ids"
  = Some (TUnion [TInt; TList TInt; TNoneType],
          Field (TUnion [TInt; TList TInt; TNoneType])
            (DefaultValue (VList [VInt 1; VInt 2]))).
Proof.
  apply (list_to_str_fields_wide_union
           [("ids", Field (TUnion [TInt; TList TInt; TNoneType])
                      (DefaultValue (VList [VInt 1; VInt 2])))]
           _ "ids"
           (Field (TUnion [TInt; TList TInt; TNoneType])
              (DefaultValue (VList [VInt 1; VInt 2])))
           [TInt; TList TInt; TNoneType]).
  - apply (bool_decide_unpack _). vm_compute. exact I.
  - reflexivity.
  - left.
  - reflexivity.
  - discriminate.
Defined.

Lemma filtering_without_ordering_field_witness :
  filtering_fields (constants_for ["name"]) (populate name_only [("name", VStr "x")])
  = [("name", VStr "x")]
  /\ ordering_values (constants_for ["name"]) (filter_class (constants_for ["name"]))
       (populate name_only [("name", VStr "x")])
     = Raise (AttributeError
                "Ordering field order_by is not defined. Make sure to add it to your filter class.").
Proof.
  destruct (filtering_without_ordering_field (constants_for ["name"])
              (filter_class (constants_for ["name"]))
              (populate name_only [("name", VStr "x")])) as (Hfields & _ & Hraise).
  - apply (bool_decide_unpack _). vm_compute. exact I.
  - split; [exact Hfields|].
    apply Hraise; apply (bool_decide_unpack _); vm_compute; exact I.
Defined.
